(** * spherical_objects.py: fisheye lens projection and bounding boxes

    A shallow embedding of [src/spherical_objects.py].  Python values are
    modelled as the interpreter has them: a number is an [int] (unbounded,
    [Z]) or a [float] (IEEE-754 binary64, Rocq's primitive floats), an
    exception is a value of [exn], and a call that may raise returns a
    [result]. *)

From Stdlib Require Import ZArith List String Bool Lia Floats.
From Stdlib Require Import DecimalString.
From Stdlib Require Reals Lra.
Import ListNotations.

Set Warnings "-inexact-float".

Local Open Scope string_scope.
Local Open Scope Z_scope.

(** ** Exceptions and results *)

Inductive exn : Type :=
| AssertionError (msg : string)
| ValueError (msg : string)
| IndexError
| OverflowError
| ZeroDivisionError
| TypeError
| AttributeError.

Inductive result (A : Type) : Type :=
| Ok (a : A)
| Raise (e : exn).

Arguments Ok {A} a.
Arguments Raise {A} e.

Definition bind {A B : Type} (r : result A) (k : A -> result B) : result B :=
  match r with
  | Ok a => k a
  | Raise e => Raise e
  end.

Notation "x <- r ;; k" := (bind r (fun x => k))
  (at level 61, r at next level, right associativity).

Definition raises {A : Type} (r : result A) : bool :=
  match r with Ok _ => false | Raise _ => true end.

(** ** Numbers *)

Inductive num : Type :=
| Int (n : Z)
| Float (x : float).

(** [float(n)] for an int: round to nearest, ties to even; an int beyond the
    range of a double raises [OverflowError]. *)
Definition float_of_int (n : Z) : result float :=
  match binary_normalize prec emax n 0 false with
  | S754_infinity _ => Raise OverflowError
  | s => Ok (SF2Prim s)
  end.

Definition as_float (a : num) : result float :=
  match a with
  | Int n => float_of_int n
  | Float x => Ok x
  end.

(** The coercion rule of binary arithmetic: int with int stays int, anything
    else is computed on doubles. *)
Definition arith (fz : Z -> Z -> Z) (ff : float -> float -> float)
    (a b : num) : result num :=
  match a, b with
  | Int m, Int n => Ok (Int (fz m n))
  | _, _ => x <- as_float a ;; y <- as_float b ;; Ok (Float (ff x y))
  end.

Definition num_add : num -> num -> result num := arith Z.add PrimFloat.add.
Definition num_sub : num -> num -> result num := arith Z.sub PrimFloat.sub.
Definition num_mul : num -> num -> result num := arith Z.mul PrimFloat.mul.

(** [a / b] for floats: a zero divisor raises. *)
Definition float_truediv (a b : float) : result float :=
  if (b =? 0)%float then Raise ZeroDivisionError else Ok (a / b)%float.

(** [a / b] where [b] is a float (every divisor of the program is one). *)
Definition truediv (a : num) (b : float) : result float :=
  x <- as_float a ;; float_truediv x b.

(** Exact value of a finite double, as [m * 2^e]. *)
Definition SFint (s : bool) (m : positive) : Z :=
  if s then Z.neg m else Z.pos m.

(** C's [fmod]: exact remainder of the truncated quotient, sign of [x]. *)
Definition SFfmod (x y : spec_float) : spec_float :=
  match x, y with
  | S754_nan, _ | _, S754_nan => S754_nan
  | S754_infinity _, _ => S754_nan
  | _, S754_zero _ => S754_nan
  | S754_zero _, _ => x
  | S754_finite _ _ _, S754_infinity _ => x
  | S754_finite sx mx ex, S754_finite _ my ey =>
      let e := Z.min ex ey in
      let X := Z.pos mx * 2 ^ (ex - e) in
      let Y := Z.pos my * 2 ^ (ey - e) in
      match X mod Y with
      | Z0 => S754_zero sx
      | R => binary_normalize prec emax (if sx then - R else R) e false
      end
  end.

(** C's [floor]. *)
Definition SFfloor (x : spec_float) : spec_float :=
  match x with
  | S754_finite s m e =>
      if 0 <=? e then x
      else match SFint s m / 2 ^ (- e) with
           | Z0 => S754_zero s
           | n => binary_normalize prec emax n 0 false
           end
  | _ => x
  end.

Definition fmod (x y : float) : float := SF2Prim (SFfmod (Prim2SF x) (Prim2SF y)).
Definition floor (x : float) : float := SF2Prim (SFfloor (Prim2SF x)).
Definition copysign_zero (x : float) : float :=
  if get_sign x then neg_zero else zero.

(** [vx // wx] on floats, after CPython's [float_floor_div]. *)
Definition float_floordiv (vx wx : float) : result float :=
  if (wx =? 0)%float then Raise ZeroDivisionError
  else
    let mod_ := fmod vx wx in
    let div := ((vx - mod_) / wx)%float in
    let div :=
      if negb (mod_ =? 0)%float
      then if xorb (wx <? 0)%float (mod_ <? 0)%float then (div - 1)%float else div
      else div in
    if negb (div =? 0)%float
    then
      let fl := floor div in
      Ok (if (0.5 <? div - fl)%float then (fl + 1)%float else fl)
    else Ok (copysign_zero (vx / wx)%float).

(** [a // b]: floor division. *)
Definition num_floordiv (a b : num) : result num :=
  match a, b with
  | Int m, Int n =>
      if n =? 0 then Raise ZeroDivisionError else Ok (Int (m / n))
  | _, _ =>
      x <- as_float a ;; y <- as_float b ;;
      q <- float_floordiv x y ;; Ok (Float q)
  end.

(** [x == n] for a float and an int compares the exact values. *)
Definition float_eq_int (x : float) (n : Z) : bool :=
  match Prim2SF x with
  | S754_zero _ => n =? 0
  | S754_finite s m e =>
      if 0 <=? e then n =? SFint s m * 2 ^ e
      else n * 2 ^ (- e) =? SFint s m
  | _ => false
  end.

Definition num_eqb (a b : num) : bool :=
  match a, b with
  | Int m, Int n => m =? n
  | Float x, Float y => (x =? y)%float
  | Float x, Int n | Int n, Float x => float_eq_int x n
  end.

Definition num_ne (a b : num) : bool := negb (num_eqb a b).

(** ** Sequences *)

(** [l[i]] with Python's negative indices; out of range raises. *)
Definition getitem {A : Type} (l : list A) (i : Z) : result A :=
  let j := if i <? 0 then i + Z.of_nat (List.length l) else i in
  if j <? 0 then Raise IndexError
  else match nth_error l (Z.to_nat j) with
       | Some a => Ok a
       | None => Raise IndexError
       end.

(** [len(l)] *)
Definition len {A : Type} (l : list A) : Z := Z.of_nat (List.length l).

(** [range(start, stop, step)] as the list it iterates over. *)
Definition range (start stop step : Z) : result (list Z) :=
  if step =? 0 then Raise (ValueError "range() arg 3 must not be zero")
  else
    let n := if 0 <? step
             then (stop - start + step - 1) / step
             else (start - stop - step - 1) / (- step) in
    Ok (map (fun k => start + Z.of_nat k * step) (seq 0 (Z.to_nat n))).

(** [a, b = s]: the sequence must hold exactly two items. *)
Definition unpack2 {A : Type} (s : list A) : result (A * A) :=
  match s with
  | [a; b] => Ok (a, b)
  | _ :: _ :: _ :: _ => Raise (ValueError "too many values to unpack (expected 2)")
  | [_] => Raise (ValueError "not enough values to unpack (expected 2, got 1)")
  | [] => Raise (ValueError "not enough values to unpack (expected 2, got 0)")
  end.

Definition str_of_len {A : Type} (l : list A) : string :=
  NilZero.string_of_uint (Nat.to_uint (List.length l)).

(** ** The math module *)

(** The C library's [sin], [cos] and [acos] on doubles. *)
Record libm : Type := {
  libm_sin : float -> float;
  libm_cos : float -> float;
  libm_acos : float -> float
}.

(** What C99 (Annex F) fixes of them: the exact values at the pole, the
    domain of [acos], and finite results on finite arguments. *)
Record libm_c99 (m : libm) : Prop := {
  sin_zero : libm_sin m 0%float = 0%float;
  cos_zero : libm_cos m 0%float = 1%float;
  acos_one : libm_acos m 1%float = 0%float;
  acos_domain : forall x, ((x <? -1) || (1 <? x))%float = true ->
                is_nan (libm_acos m x) = true;
  sin_finite : forall x, is_finite x = true -> is_finite (libm_sin m x) = true;
  cos_finite : forall x, is_finite x = true -> is_finite (libm_cos m x) = true
}.

(** CPython's wrapper of a one-argument libm function: a NaN from a number,
    or an infinity from a finite number, is a [ValueError]. *)
Definition math_1 (func : float -> float) (a : num) : result float :=
  x <- as_float a ;;
  let r := func x in
  if is_nan r && negb (is_nan x) then Raise (ValueError "math domain error")
  else if is_infinity r && is_finite x then Raise (ValueError "math domain error")
  else Ok r.

Definition math_sqrt : num -> result float := math_1 PrimFloat.sqrt.
Definition math_sin (m : libm) : num -> result float := math_1 (libm_sin m).
Definition math_cos (m : libm) : num -> result float := math_1 (libm_cos m).
Definition math_acos (m : libm) : num -> result float := math_1 (libm_acos m).

(** ** Lens constants (a 1080p image) *)

Definition f : float := 714.285714%float.
Definition center : list num := [Int 960; Int 540].
Definition D : float := 1.082984%float.

(** ** Point conversions *)

Definition cartesian2sphere (m : libm) (pt : list num) : result (list num) :=
  p0 <- getitem pt 0 ;;
  c0 <- getitem center 0 ;;
  dx <- num_sub p0 c0 ;;
  x <- truediv dx f ;;
  p1 <- getitem pt 1 ;;
  c1 <- getitem center 1 ;;
  dy <- num_sub p1 c1 ;;
  y <- truediv dy f ;;
  r <- math_sqrt (Float (x * x + y * y)) ;;
  xy <- (if num_ne (Float r) (Int 0)
         then x' <- float_truediv x r ;;
              y' <- float_truediv y r ;;
              Ok (x', y')
         else Ok (x, y)) ;;
  let r := (r * D)%float in
  sin_theta <- math_sin m (Float r) ;;
  let x := (fst xy * sin_theta)%float in
  let y := (snd xy * sin_theta)%float in
  z <- math_cos m (Float r) ;;
  Ok [Float x; Float y; Float z].

Definition sphere2cartesian (m : libm) (pt : list num) : result (list num) :=
  p2 <- getitem pt 2 ;;
  r <- math_acos m p2 ;;
  r <- float_truediv r D ;;
  p2 <- getitem pt 2 ;;
  r <- (if num_ne p2 (Int 1)
        then sq <- num_mul p2 p2 ;;
             d <- num_sub (Int 1) sq ;;
             s <- math_sqrt d ;;
             float_truediv r s
        else Ok r) ;;
  p0 <- getitem pt 0 ;;
  rx <- num_mul (Float r) p0 ;;
  rxf <- num_mul rx (Float f) ;;
  c0 <- getitem center 0 ;;
  x <- num_add rxf c0 ;;
  p1 <- getitem pt 1 ;;
  ry <- num_mul (Float r) p1 ;;
  ryf <- num_mul ry (Float f) ;;
  c1 <- getitem center 1 ;;
  y <- num_add ryf c1 ;;
  Ok [x; y].

(** Convert single points between Cartesian and spherical coordinates. *)
Definition convert_point (m : libm) (point : list num) : result (list num) :=
  if len point =? 2 then cartesian2sphere m point
  else if len point =? 3 then sphere2cartesian m point
  else Raise (ValueError
    ("Expected point to be 2 or 3D, got " ++ str_of_len point ++ " dimensions")%string).

(** The part of [cartesian2sphere] before the trigonometric calls: the unit
    direction on the image plane and the polar angle [r * D]. *)
Definition polar (pt : list num) : result (float * float * float) :=
  p0 <- getitem pt 0 ;;
  c0 <- getitem center 0 ;;
  dx <- num_sub p0 c0 ;;
  x <- truediv dx f ;;
  p1 <- getitem pt 1 ;;
  c1 <- getitem center 1 ;;
  dy <- num_sub p1 c1 ;;
  y <- truediv dy f ;;
  r <- math_sqrt (Float (x * x + y * y)) ;;
  xy <- (if num_ne (Float r) (Int 0)
         then x' <- float_truediv x r ;;
              y' <- float_truediv y r ;;
              Ok (x', y')
         else Ok (x, y)) ;;
  Ok (fst xy, snd xy, (r * D)%float).

(** The steps of the two transforms between the reads of the items of
    [pt]: what [cartesian2sphere] does once [x] and [y] are computed, the
    radial scale that [sphere2cartesian] computes from [pt[2]], and one
    pixel coordinate [r * p * f + center[i]]. *)
Definition on_sphere (m : libm) (x y : float) : result (list num) :=
  r <- math_sqrt (Float (x * x + y * y)) ;;
  xy <- (if num_ne (Float r) (Int 0)
         then x' <- float_truediv x r ;;
              y' <- float_truediv y r ;;
              Ok (x', y')
         else Ok (x, y)) ;;
  let r := (r * D)%float in
  sin_theta <- math_sin m (Float r) ;;
  let x := (fst xy * sin_theta)%float in
  let y := (snd xy * sin_theta)%float in
  z <- math_cos m (Float r) ;;
  Ok [Float x; Float y; Float z].

Definition radial (m : libm) (p2 : num) : result float :=
  r <- math_acos m p2 ;;
  r <- float_truediv r D ;;
  if num_ne p2 (Int 1)
  then sq <- num_mul p2 p2 ;;
       d <- num_sub (Int 1) sq ;;
       s <- math_sqrt d ;;
       float_truediv r s
  else Ok r.

Definition pixel_coordinate (r : float) (p : num) (i : Z) : result num :=
  rx <- num_mul (Float r) p ;;
  rxf <- num_mul rx (Float f) ;;
  c <- getitem center i ;;
  num_add rxf c.

(** A number outside [-1, 1]: below -1 or above 1. *)
Definition outside_unit (z : num) : bool :=
  match z with
  | Int n => (n <? -1) || (1 <? n)
  | Float v => ((v <? -1) || (1 <? v))%float
  end.

(** A finite number: a finite double, or an int within the range of a
    double. *)
Definition finite_num (a : num) : bool :=
  match a with
  | Int n => negb (raises (float_of_int n))
  | Float v => is_finite v
  end.

(** A stand-in C library for evaluating the model: low-order series, exact at
    the pole, NaN outside the domains. *)
Definition finite_or (d r : float) : float := if is_finite r then r else d.

Definition toy_libm : libm := {|
  libm_sin := fun x =>
    if is_finite x then finite_or 0 (x - x * x * x / 6)%float else nan;
  libm_cos := fun x =>
    if is_finite x then finite_or 0 (1 - x * x / 2)%float else nan;
  libm_acos := fun x =>
    if ((x <? -1) || (1 <? x))%float then nan else sqrt (2 * (1 - x))
|}.

(** ** Points and bounding boxes *)

(** A point is used through [len], indexing and unpacking only: it is
    modelled by the sequence of its coordinates ([self.point]). *)
Definition point : Type := list num.

Definition Point2D (x y : num) : point := [x; y].
Definition Point3D (x y z : num) : point := [x; y; z].

(** [for x in xs: s = body(x, s)] *)
Fixpoint for_in {A S : Type} (xs : list A) (body : A -> S -> result S) (s : S)
    : result S :=
  match xs with
  | [] => Ok s
  | x :: xs' => s' <- body x s ;; for_in xs' body s'
  end.

Module CartesianBbox.

Record t : Type := { points : list point; fmt : string }.

Definition __init__ (points : list point) (fmt : string) : result t :=
  if negb (existsb (String.eqb fmt) ["xyxy"; "xywh"; "cxcywh"])
  then Raise (AssertionError "Invalid bbox format")
  else if negb (2 <=? len points)
  then Raise (AssertionError
    "Invalid number of points, cartesian bbox must have at least 2 2D points")
  else if negb (len points mod 2 =? 0)
  then Raise (AssertionError "the number of points must be pair")
  else Ok {| points := points; fmt := fmt |}.

Definition _from_xywh_to_xyxy (points : list point) : result (list point) :=
  p0 <- getitem points 0 ;;
  xy <- unpack2 p0 ;;
  let '(x1, y1) := xy in
  p1 <- getitem points 1 ;;
  wh <- unpack2 p1 ;;
  let '(w, h) := wh in
  x2 <- num_add x1 w ;;
  y2 <- num_add y1 h ;;
  Ok [Point2D x1 y1; Point2D x2 y2].

Definition _from_cxcywh_to_xyxy (points : list point) : result (list point) :=
  p0 <- getitem points 0 ;;
  c <- unpack2 p0 ;;
  let '(cx, cy) := c in
  p1 <- getitem points 1 ;;
  wh <- unpack2 p1 ;;
  let '(w, h) := wh in
  hw <- num_floordiv w (Int 2) ;;
  x1 <- num_sub cx hw ;;
  hh <- num_floordiv h (Int 2) ;;
  y1 <- num_sub cy hh ;;
  x2 <- num_add x1 w ;;
  y2 <- num_add y1 h ;;
  Ok [Point2D x1 y1; Point2D x2 y2].

(** The loop shared by the two branches of [get_points_as_xyxy]:
    [points = []; for idx in range(0, 2, len(self.points)): ...]. *)
Definition convert_pairs (self : t)
    (conv : list point -> result (list point)) : result (list point) :=
  idxs <- range 0 2 (len (points self)) ;;
  for_in idxs
    (fun idx acc =>
       pt1 <- getitem (points self) idx ;;
       pt2 <- getitem (points self) (idx + 1) ;;
       c <- conv [pt1; pt2] ;;
       Ok (acc ++ c)%list)
    [].

Definition get_points_as_xyxy (self : t) : result (list point) :=
  let pts := points self in
  pts <- (if String.eqb (fmt self) "xywh"
          then convert_pairs self _from_xywh_to_xyxy
          else Ok pts) ;;
  pts <- (if String.eqb (fmt self) "cxcywh"
          then convert_pairs self _from_cxcywh_to_xyxy
          else Ok pts) ;;
  Ok pts.

End CartesianBbox.

Module SphericalBbox.

Record t : Type := { points : list point }.

Definition __init__ (points : list point) : result t :=
  if negb (2 <=? len points)
  then Raise (AssertionError
    "Invalid number of points, cartesian bbox must have at least 2 3D points")
  else if negb (len points mod 2 =? 0)
  then Raise (AssertionError "the number of points must be pair")
  else Ok {| points := points |}.

End SphericalBbox.

Definition bbox_to_spherical (m : libm) (cartesian : CartesianBbox.t)
    : result SphericalBbox.t :=
  cartesian_points <- CartesianBbox.get_points_as_xyxy cartesian ;;
  spherical_points <-
    for_in cartesian_points
      (fun cartesian_point acc =>
         spherical_point <- convert_point m cartesian_point ;;
         Ok (acc ++ [spherical_point])%list)
      [] ;;
  SphericalBbox.__init__ spherical_points.

(** The box of the module's [__main__] block. *)
Definition main_points : list point :=
  [Point2D (Int 3) (Int 5); Point2D (Int 7) (Int 10);
   Point2D (Int 7) (Int 10); Point2D (Int 7) (Int 10)].

(** Following the specification: every consecutive pair is converted
    ([range(0, len(points), 2)]). *)
Definition convert_every_pair (pts : list point)
    (conv : list point -> result (list point)) : result (list point) :=
  idxs <- range 0 (len pts) 2 ;;
  for_in idxs
    (fun idx acc =>
       pt1 <- getitem pts idx ;;
       pt2 <- getitem pts (idx + 1) ;;
       c <- conv [pt1; pt2] ;;
       Ok (acc ++ c)%list)
    [].

(** ** The error taxonomy of the specification, as the code raises it *)

(** InvalidDimension: [convert_point] on a point of neither 2 nor 3
    coordinates. *)
Definition InvalidDimension (n : string) : exn :=
  ValueError ("Expected point to be 2 or 3D, got " ++ n ++ " dimensions").

(** InvalidFormat: a format tag outside xyxy, xywh, cxcywh. *)
Definition InvalidFormat : exn := AssertionError "Invalid bbox format".

(** InvalidPointCount: fewer than two points (the message names the
    dimension of the box's points), or an odd number of them. *)
Definition TooFewPoints (dim : string) : exn :=
  AssertionError
    ("Invalid number of points, cartesian bbox must have at least 2 " ++ dim ++ " points").
Definition OddPointCount : exn := AssertionError "the number of points must be pair".


Definition recognized_fmt (fmt : string) : bool :=
  existsb (String.eqb fmt) ["xyxy"; "xywh"; "cxcywh"].

(** ** Notions used by the properties *)

(** [[f(x) for x in xs]], stopping at the first call that raises. *)
Fixpoint traverse {A B : Type} (f : A -> result B) (xs : list A) : result (list B) :=
  match xs with
  | [] => Ok []
  | x :: xs' => y <- f x ;; ys <- traverse f xs' ;; Ok (y :: ys)
  end.

(** A point of two int coordinates. *)
Definition int_point (p : point) : Prop := exists x y : Z, p = Point2D (Int x) (Int y).

(** * Objects in the store

    The same program with Python's objects made explicit: lists and class
    instances live in a store, variables and fields hold references, and
    [list.append] updates a list in place.  This is the model in which it
    can be said that a call changes no object that existed before it. *)

Module Heap.

Definition loc : Type := nat.

Inductive val : Type :=
| VNum (a : num)
| VRef (l : loc).

Inductive obj : Type :=
| OList (items : list val)
| OPoint2D (x y : val) (point : val)
| OPoint3D (x y z : val) (point : val)
| OCartesianBbox (points : val) (fmt : string)
| OSphericalBbox (points : val).

Definition heap : Type := list obj.

(** A computation reads and extends the store, and returns or raises. *)
Definition M (A : Type) : Type := heap -> result A * heap.

Definition ret {A : Type} (a : A) : M A := fun h => (Ok a, h).

Definition lift {A : Type} (r : result A) : M A := fun h => (r, h).

Definition mbind {A B : Type} (c : M A) (k : A -> M B) : M B :=
  fun h => match c h with
           | (Ok a, h') => k a h'
           | (Raise e, h') => (Raise e, h')
           end.

Notation "x <~ c ;; k" := (mbind c (fun x => k))
  (at level 61, c at next level, right associativity).

Definition alloc (o : obj) : M val :=
  fun h => (Ok (VRef (List.length h)), (h ++ [o])%list).

(** The object behind a value, for access to an attribute: a number has
    none of the attributes read here. *)
Definition load (v : val) : M obj :=
  fun h => match v with
           | VRef l => match nth_error h l with
                       | Some o => (Ok o, h)
                       | None => (Raise TypeError, h)
                       end
           | VNum _ => (Raise AttributeError, h)
           end.

Fixpoint update (h : heap) (l : loc) (o : obj) : heap :=
  match h, l with
  | [], _ => []
  | _ :: h', O => o :: h'
  | o' :: h', S l' => o' :: update h' l' o
  end.

Definition store (l : loc) (o : obj) : M unit :=
  fun h => (Ok tt, update h l o).

Definition as_num (v : val) : M num :=
  match v with
  | VNum a => ret a
  | VRef _ => lift (Raise TypeError)
  end.

Fixpoint as_nums (vs : list val) : M (list num) :=
  match vs with
  | [] => ret []
  | v :: vs' => a <~ as_num v ;; l <~ as_nums vs' ;; ret (a :: l)
  end.

(** The items of a sequence: of a list, or of a point through its
    [__getitem__] and [__len__], which read [self.point].  [len], indexing
    and iteration of a number, or of an object that is no sequence, are
    [TypeError]s. *)
Definition list_items (v : val) : M (list val) :=
  match v with
  | VNum _ => lift (Raise TypeError)
  | VRef _ =>
      o <~ load v ;;
      match o with
      | OList items => ret items
      | _ => lift (Raise TypeError)
      end
  end.

Definition seq_items (v : val) : M (list val) :=
  match v with
  | VNum _ => lift (Raise TypeError)
  | VRef _ =>
      o <~ load v ;;
      match o with
      | OList items => ret items
      | OPoint2D _ _ point | OPoint3D _ _ _ point => list_items point
      | _ => lift (Raise TypeError)
      end
  end.

(** [s[i]] *)
Definition item (s : val) (i : Z) : M val :=
  items <~ seq_items s ;;
  lift (getitem items i).

(** [l.append(v)]: only a list has the attribute. *)
Definition list_append (l v : val) : M unit :=
  o <~ load l ;;
  match o, l with
  | OList items, VRef a => store a (OList (items ++ [v]))
  | _, _ => lift (Raise AttributeError)
  end.

Fixpoint for_in {A S : Type} (xs : list A) (body : A -> S -> M S) (s : S) : M S :=
  match xs with
  | [] => ret s
  | x :: xs' => s' <~ body x s ;; for_in xs' body s'
  end.

(** [Point2D(x, y)] *)
Definition Point2D (x y : val) : M val :=
  point <~ alloc (OList [x; y]) ;;
  alloc (OPoint2D x y point).

(** [Point3D(x, y, z)] *)
Definition Point3D (x y z : val) : M val :=
  point <~ alloc (OList [x; y; z]) ;;
  alloc (OPoint3D x y z point).

Definition binop (op : num -> num -> result num) (v w : val) : M val :=
  a <~ as_num v ;; b <~ as_num w ;; c <~ lift (op a b) ;; ret (VNum c).

(** [self.points] and [self.fmt] *)
Definition attr_points (self : val) : M val :=
  o <~ load self ;;
  match o with
  | OCartesianBbox points _ | OSphericalBbox points => ret points
  | _ => lift (Raise AttributeError)
  end.

Definition attr_fmt (self : val) : M string :=
  o <~ load self ;;
  match o with
  | OCartesianBbox _ fmt => ret fmt
  | _ => lift (Raise AttributeError)
  end.

(** [CartesianBbox(points, fmt)] *)
Definition CartesianBbox (points : val) (fmt : string) : M val :=
  if negb (existsb (String.eqb fmt) ["xyxy"; "xywh"; "cxcywh"])
  then lift (Raise (AssertionError "Invalid bbox format"))
  else
    items <~ seq_items points ;;
    if negb (2 <=? len items)
    then lift (Raise (AssertionError
      "Invalid number of points, cartesian bbox must have at least 2 2D points"))
    else
      items <~ seq_items points ;;
      if negb (len items mod 2 =? 0)
      then lift (Raise (AssertionError "the number of points must be pair"))
      else alloc (OCartesianBbox points fmt).

Definition _from_xywh_to_xyxy (points : val) : M val :=
  items <~ seq_items points ;;
  p0 <~ lift (getitem items 0) ;;
  xy <~ seq_items p0 ;;
  xy <~ lift (unpack2 xy) ;;
  let '(x1, y1) := xy in
  items <~ seq_items points ;;
  p1 <~ lift (getitem items 1) ;;
  wh <~ seq_items p1 ;;
  wh <~ lift (unpack2 wh) ;;
  let '(w, h) := wh in
  x2 <~ binop num_add x1 w ;;
  y2 <~ binop num_add y1 h ;;
  a <~ Point2D x1 y1 ;;
  b <~ Point2D x2 y2 ;;
  alloc (OList [a; b]).

Definition _from_cxcywh_to_xyxy (points : val) : M val :=
  items <~ seq_items points ;;
  p0 <~ lift (getitem items 0) ;;
  c <~ seq_items p0 ;;
  c <~ lift (unpack2 c) ;;
  let '(cx, cy) := c in
  items <~ seq_items points ;;
  p1 <~ lift (getitem items 1) ;;
  wh <~ seq_items p1 ;;
  wh <~ lift (unpack2 wh) ;;
  let '(w, h) := wh in
  hw <~ binop num_floordiv w (VNum (Int 2)) ;;
  x1 <~ binop num_sub cx hw ;;
  hh <~ binop num_floordiv h (VNum (Int 2)) ;;
  y1 <~ binop num_sub cy hh ;;
  x2 <~ binop num_add x1 w ;;
  y2 <~ binop num_add y1 h ;;
  a <~ Point2D x1 y1 ;;
  b <~ Point2D x2 y2 ;;
  alloc (OList [a; b]).

(** [points = []; for idx in range(0, 2, len(self.points)): ...
     points = [*points, *conv([pt1, pt2])]] *)
Definition convert_pairs (self : val) (conv : val -> M val) : M val :=
  points <~ alloc (OList []) ;;
  sp <~ attr_points self ;;
  items <~ seq_items sp ;;
  idxs <~ lift (range 0 2 (len items)) ;;
  for_in idxs
    (fun idx points =>
       sp <~ attr_points self ;;
       items <~ seq_items sp ;;
       pt1 <~ lift (getitem items idx) ;;
       sp <~ attr_points self ;;
       items <~ seq_items sp ;;
       pt2 <~ lift (getitem items (idx + 1)) ;;
       arg <~ alloc (OList [pt1; pt2]) ;;
       c <~ conv arg ;;
       old <~ seq_items points ;;
       new <~ seq_items c ;;
       alloc (OList (old ++ new)))
    points.

Definition get_points_as_xyxy (self : val) : M val :=
  points <~ attr_points self ;;
  fmt <~ attr_fmt self ;;
  points <~ (if String.eqb fmt "xywh"
             then convert_pairs self _from_xywh_to_xyxy
             else ret points) ;;
  fmt <~ attr_fmt self ;;
  points <~ (if String.eqb fmt "cxcywh"
             then convert_pairs self _from_cxcywh_to_xyxy
             else ret points) ;;
  ret points.

(** [SphericalBbox(points)] *)
Definition SphericalBbox (points : val) : M val :=
  items <~ seq_items points ;;
  if negb (2 <=? len items)
  then lift (Raise (AssertionError
    "Invalid number of points, cartesian bbox must have at least 2 3D points"))
  else
    items <~ seq_items points ;;
    if negb (len items mod 2 =? 0)
    then lift (Raise (AssertionError "the number of points must be pair"))
    else alloc (OSphericalBbox points).

(** The point conversions read the items of [pt] one at a time, where
    the source does; an item that is not a number is a [TypeError] at the
    operation that uses it.  Each returns a new list. *)
Definition cartesian2sphere (m : libm) (pt : val) : M val :=
  p0 <~ item pt 0 ;;
  p0 <~ as_num p0 ;;
  x <~ lift (c0 <- getitem center 0 ;; dx <- num_sub p0 c0 ;; truediv dx f) ;;
  p1 <~ item pt 1 ;;
  p1 <~ as_num p1 ;;
  y <~ lift (c1 <- getitem center 1 ;; dy <- num_sub p1 c1 ;; truediv dy f) ;;
  r <~ lift (on_sphere m x y) ;;
  alloc (OList (map VNum r)).

Definition sphere2cartesian (m : libm) (pt : val) : M val :=
  p2 <~ item pt 2 ;;
  p2 <~ as_num p2 ;;
  r <~ lift (radial m p2) ;;
  p0 <~ item pt 0 ;;
  p0 <~ as_num p0 ;;
  x <~ lift (pixel_coordinate r p0 0) ;;
  p1 <~ item pt 1 ;;
  p1 <~ as_num p1 ;;
  y <~ lift (pixel_coordinate r p1 1) ;;
  alloc (OList [VNum x; VNum y]).

Definition convert_point (m : libm) (point : val) : M val :=
  items <~ seq_items point ;;
  if len items =? 2 then cartesian2sphere m point
  else
    items <~ seq_items point ;;
    if len items =? 3 then sphere2cartesian m point
    else
      items <~ seq_items point ;;
      lift (Raise (ValueError
        ("Expected point to be 2 or 3D, got " ++ str_of_len items ++ " dimensions")%string)).

Definition bbox_to_spherical (m : libm) (cartesian : val) : M val :=
  spherical_points <~ alloc (OList []) ;;
  cartesian_points <~ get_points_as_xyxy cartesian ;;
  items <~ seq_items cartesian_points ;;
  _ <~ for_in items
         (fun cartesian_point _ =>
            spherical_point <~ convert_point m cartesian_point ;;
            list_append spherical_points spherical_point)
         tt ;;
  SphericalBbox spherical_points.

End Heap.

(** The sequence methods of the point classes: [__getitem__] and [__len__]
    read the list held in [self.point]. *)
Module HeapMethods.
Import Heap(val, VNum, VRef, obj, OList, OPoint2D, OPoint3D, M, ret, lift, mbind,
            load, list_items).

Module Point2D.

Definition __getitem__ (self : val) (idx : Z) : M val :=
  Heap.mbind (load self) (fun o =>
  match o with
  | OPoint2D _ _ point =>
      Heap.mbind (list_items point) (fun items => lift (getitem items idx))
  | _ => lift (Raise AttributeError)
  end).

Definition __len__ (self : val) : M Z :=
  Heap.mbind (load self) (fun o =>
  match o with
  | OPoint2D _ _ point => Heap.mbind (list_items point) (fun items => ret (len items))
  | _ => lift (Raise AttributeError)
  end).

End Point2D.

Module Point3D.

Definition __getitem__ (self : val) (idx : Z) : M val :=
  Heap.mbind (load self) (fun o =>
  match o with
  | OPoint3D _ _ _ point =>
      Heap.mbind (list_items point) (fun items => lift (getitem items idx))
  | _ => lift (Raise AttributeError)
  end).

Definition __len__ (self : val) : M Z :=
  Heap.mbind (load self) (fun o =>
  match o with
  | OPoint3D _ _ _ point => Heap.mbind (list_items point) (fun items => ret (len items))
  | _ => lift (Raise AttributeError)
  end).

End Point3D.

End HeapMethods.

(** A one-box xyxy bounding box built in the empty store; returns the
    points list and the box. *)
Definition build_xyxy_box : Heap.M (Heap.val * Heap.val) :=
  Heap.mbind (Heap.Point2D (Heap.VNum (Int 960)) (Heap.VNum (Int 540))) (fun p1 =>
  Heap.mbind (Heap.Point2D (Heap.VNum (Int 1100)) (Heap.VNum (Int 600))) (fun p2 =>
  Heap.mbind (Heap.alloc (Heap.OList [p1; p2])) (fun pts =>
  Heap.mbind (Heap.CartesianBbox pts "xyxy") (fun box =>
  Heap.ret (pts, box))))).

Definition xyxy_store : Heap.heap := snd (build_xyxy_box []).

(** ** Reasoning about the store *)

Module HeapLogic.
Import Heap(heap, val, VNum, VRef, obj, OList, OPoint2D, OPoint3D, OCartesianBbox,
            OSphericalBbox, M, seq_items).
Local Open Scope nat_scope.
Local Open Scope list_scope.

(** [triple n c Q]: run from a store of at least [n] objects, [c] leaves
    the first [n] objects as they were, removes nothing, and a value it
    returns satisfies [Q]. *)
Definition triple {A : Type} (n : nat) (c : M A) (Q : A -> Prop) : Prop :=
  forall h, (n <= List.length h)%nat ->
    (List.length h <= List.length (snd (c h)))%nat /\
    (forall l, (l < n)%nat -> nth_error (snd (c h)) l = nth_error h l) /\
    (forall a, fst (c h) = Ok a -> Q a).

Definition any {A : Type} : A -> Prop := fun _ => True.

(** A reference to an object allocated after the first [n]. *)
Definition fresh (n : nat) (v : val) : Prop :=
  exists l, v = VRef l /\ (n <= l)%nat.

(** The items of a sequence, as [seq_items] reads them. *)
Definition read (h : heap) (v : val) : result (list val) := fst (seq_items v h).

(** [h'] extends [h]: the objects of [h] followed by new ones. *)
Definition ext (h h' : heap) : Prop := exists e, h' = (h ++ e)%list.

(** A value of the store stands for a point, a list of points. *)
Definition is_point (h : heap) (v : val) (p : point) : Prop :=
  read h v = Ok (map VNum p).

Definition is_points (h : heap) (v : val) (ps : list point) : Prop :=
  exists vs, read h v = Ok vs /\ Forall2 (is_point h) vs ps.

(** [c], run in [h], does what the store-free [r] does: it only adds
    objects, raises the same exception, or returns a related value. *)
Definition sim {A B : Type} (R : heap -> A -> B -> Prop)
    (c : M A) (r : result B) (h : heap) : Prop :=
  ext h (snd (c h)) /\
  match fst (c h), r with
  | Ok a, Ok b => R (snd (c h)) a b
  | Raise e, Raise e' => e = e'
  | _, _ => False
  end.

(** What the loop of [convert_pairs] relies on: the box at [b], its points
    list and the points in it, standing for [ps]. *)
Definition box_in (b : nat) (ptsv : val) (fmt : string) (vs : list val)
    (ps : list point) (h : heap) : Prop :=
  nth_error h b = Some (OCartesianBbox ptsv fmt) /\
  read h ptsv = Ok vs /\ Forall2 (is_point h) vs ps.

End HeapLogic.

(** What the loop of [bbox_to_spherical] keeps: the list under
    construction sits at [n] and holds references to objects allocated
    after it. *)
Module HeapInvariants.
Import Heap(heap, val, OList).
Import HeapLogic.

Definition collecting (n : nat) (h : heap) : Prop :=
  exists items, nth_error h n = Some (OList items) /\ Forall (fresh (S n)) items.

End HeapInvariants.

(** * Properties *)

(** ** Evaluation checks *)

Example floordiv_tests :
  num_floordiv (Int 5) (Int 2) = Ok (Int 2) /\
  num_floordiv (Int (-5)) (Int 2) = Ok (Int (-3)) /\
  num_floordiv (Float 5) (Int 2) = Ok (Float 2) /\
  num_floordiv (Float (-5)) (Int 2) = Ok (Float (-3)) /\
  num_floordiv (Float 7.5) (Int 2) = Ok (Float 3) /\
  num_floordiv (Float 0.5) (Int 2) = Ok (Float 0) /\
  num_floordiv (Float (-0.5)) (Int 2) = Ok (Float (-1)) /\
  float_of_int (2 ^ 53 + 1) = Ok 9007199254740992%float /\
  float_of_int (2 ^ 53 + 3) = Ok 9007199254740996%float /\
  float_of_int (2 ^ 1024) = Raise OverflowError /\
  raises (float_of_int (2 ^ 1024 - 2 ^ 970 - 1)) = false /\
  float_of_int (2 ^ 1024 - 2 ^ 970) = Raise OverflowError /\
  num_mul (Float 0) (Float infinity) = Ok (Float nan) /\
  num_eqb (Float 1) (Int 1) = true.
Proof. vm_compute. repeat split. Qed.

Example convert_tests :
  range 0 2 4 = Ok [0] /\ range 0 2 2 = Ok [0] /\ range 0 2 1 = Ok [0; 1] /\
  range 0 10 3 = Ok [0; 3; 6; 9] /\ range 5 0 (-2) = Ok [5; 3; 1] /\
  convert_point toy_libm [Int 960; Int 540] = Ok [Float 0; Float 0; Float 1] /\
  convert_point toy_libm [Float 0; Float 7; Int 1] = Ok [Float 960; Float 540] /\
  convert_point toy_libm [Int 0; Int 0; Int 10] = Raise (ValueError "math domain error") /\
  convert_point toy_libm [Int 0; Int 0; Int (-1)] = Raise ZeroDivisionError /\
  convert_point toy_libm [Int 0; Int 0; Float infinity; Int 3]
    = Raise (ValueError "Expected point to be 2 or 3D, got 4 dimensions") /\
  convert_point toy_libm [Float infinity; Int 0; Int 1] = Ok [Float nan; Float 540] /\
  convert_point toy_libm [Float 1e300; Int 0] = Raise (ValueError "math domain error") /\
  convert_point toy_libm [Int (10 ^ 400); Int 0; Int 1] = Raise OverflowError.
Proof. vm_compute. repeat split. Qed.

Example bbox_tests :
  (b <- CartesianBbox.__init__ main_points "cxcywh" ;; CartesianBbox.get_points_as_xyxy b)
    = Ok [Point2D (Int 0) (Int 0); Point2D (Int 7) (Int 10)] /\
  (b <- CartesianBbox.__init__ main_points "xyxy" ;; CartesianBbox.get_points_as_xyxy b)
    = Ok main_points /\
  (b <- CartesianBbox.__init__ [Point2D (Float 12) (Int 12); Point2D (Float 5) (Float 5)] "cxcywh" ;;
   CartesianBbox.get_points_as_xyxy b)
    = Ok [Point2D (Float 10) (Float 10); Point2D (Float 15) (Float 15)] /\
  raises (CartesianBbox.__init__ [Point2D (Int 1) (Int 1)] "xyxy") = true /\
  raises (CartesianBbox.__init__ main_points "bogus") = true.
Proof. vm_compute. repeat split. Qed.

Example outside_unit_tests :
  outside_unit (Int 2) = true /\ outside_unit (Int (-2)) = true /\
  outside_unit (Int 10) = true /\ outside_unit (Float 1.0000000000000002) = true /\
  outside_unit (Float neg_infinity) = true /\
  outside_unit (Int 1) = false /\ outside_unit (Int 0) = false /\
  outside_unit (Float (-1)) = false /\ outside_unit (Float nan) = false.
Proof. vm_compute. repeat split. Qed.

Example xyxy_store_eq :
  build_xyxy_box [] = (Ok (Heap.VRef 4%nat, Heap.VRef 5%nat), xyxy_store) /\
  xyxy_store =
    [Heap.OList [Heap.VNum (Int 960); Heap.VNum (Int 540)];
     Heap.OPoint2D (Heap.VNum (Int 960)) (Heap.VNum (Int 540)) (Heap.VRef 0%nat);
     Heap.OList [Heap.VNum (Int 1100); Heap.VNum (Int 600)];
     Heap.OPoint2D (Heap.VNum (Int 1100)) (Heap.VNum (Int 600)) (Heap.VRef 2%nat);
     Heap.OList [Heap.VRef 1%nat; Heap.VRef 3%nat];
     Heap.OCartesianBbox (Heap.VRef 4%nat) "xyxy"].
Proof. split; reflexivity. Qed.

(** ** Dispatch of [convert_point] *)

Lemma len_eqb {A : Type} (l : list A) (n : nat) :
  (len l =? Z.of_nat n) = Nat.eqb (List.length l) n.
Proof.
  unfold len.
  destruct (Nat.eqb_spec (List.length l) n) as [->|Hne].
  - apply Z.eqb_refl.
  - apply Z.eqb_neq. lia.
Qed.

(** C5: [convert_point] is the forward transform on a point of length 2, the
    inverse transform on a point of length 3, and raises the InvalidDimension
    [ValueError] (whose message carries the length) on any other length. *)
Theorem convert_point_dispatch (m : libm) (point : list num) :
  (List.length point = 2%nat ->
     convert_point m point = cartesian2sphere m point) /\
  (List.length point = 3%nat ->
     convert_point m point = sphere2cartesian m point) /\
  (List.length point <> 2%nat -> List.length point <> 3%nat ->
     convert_point m point = Raise (InvalidDimension (str_of_len point))).
Proof.
  unfold convert_point.
  pose proof (len_eqb point 2) as E2. pose proof (len_eqb point 3) as E3.
  change (Z.of_nat 2) with 2 in E2. change (Z.of_nat 3) with 3 in E3.
  rewrite E2, E3. clear E2 E3.
  repeat split.
  - intros ->. reflexivity.
  - intros ->. reflexivity.
  - intros H2 H3.
    apply Nat.eqb_neq in H2, H3. rewrite H2, H3. reflexivity.
Qed.

Lemma convert_point_dispatch_witness :
  convert_point toy_libm [Int 1100; Int 600]
    = cartesian2sphere toy_libm [Int 1100; Int 600] /\
  convert_point toy_libm [Float 0; Float 0; Float 1]
    = sphere2cartesian toy_libm [Float 0; Float 0; Float 1] /\
  convert_point toy_libm [Int 1; Int 2; Int 3; Int 4] = Raise (InvalidDimension "4").
Proof.
  split; [|split].
  - apply (proj1 (convert_point_dispatch toy_libm [Int 1100; Int 600])).
    reflexivity.
  - apply (proj1 (proj2 (convert_point_dispatch toy_libm [Float 0; Float 0; Float 1]))).
    reflexivity.
  - apply (proj2 (proj2 (convert_point_dispatch toy_libm [Int 1; Int 2; Int 3; Int 4])));
      simpl; lia.
Defined.

(** ** Validation in the constructors *)

Lemma too_few_iff (n : nat) :
  negb (2 <=? Z.of_nat n) = true <-> (n < 2)%nat.
Proof. rewrite negb_true_iff, Z.leb_gt. lia. Qed.

Lemma odd_count_iff (n : nat) :
  negb (Z.of_nat n mod 2 =? 0) = true <-> Nat.Odd n.
Proof.
  rewrite negb_true_iff, Z.eqb_neq.
  split.
  - intros H. exists (Z.to_nat (Z.of_nat n / 2)).
    pose proof (Z.div_mod (Z.of_nat n) 2 ltac:(lia)).
    pose proof (Z.mod_pos_bound (Z.of_nat n) 2 ltac:(lia)).
    pose proof (Z.div_pos (Z.of_nat n) 2 ltac:(lia) ltac:(lia)).
    lia.
  - intros [k ->].
    replace (Z.of_nat (2 * k + 1)) with (1 + Z.of_nat k * 2) by lia.
    rewrite Z.mod_add by lia. discriminate.
Qed.

(** The two count checks shared by the constructors. *)
Lemma count_checks (n : nat) (A : Type) (e1 e2 : exn) (ok : result A) :
  ((n < 2)%nat ->
     (if negb (2 <=? Z.of_nat n) then Raise e1
      else if negb (Z.of_nat n mod 2 =? 0) then Raise e2 else ok) = Raise e1) /\
  ((2 <= n)%nat -> Nat.Odd n ->
     (if negb (2 <=? Z.of_nat n) then Raise e1
      else if negb (Z.of_nat n mod 2 =? 0) then Raise e2 else ok) = Raise e2) /\
  ((2 <= n)%nat -> Nat.Even n ->
     (if negb (2 <=? Z.of_nat n) then Raise e1
      else if negb (Z.of_nat n mod 2 =? 0) then Raise e2 else ok) = ok).
Proof.
  destruct (negb (2 <=? Z.of_nat n)) eqn:E1;
    [apply too_few_iff in E1 | apply not_true_iff_false in E1; rewrite too_few_iff in E1];
    (destruct (negb (Z.of_nat n mod 2 =? 0)) eqn:E2;
     [apply odd_count_iff in E2
     | apply not_true_iff_false in E2; rewrite odd_count_iff in E2]);
    repeat split; intros; try reflexivity; try lia; try contradiction.
  destruct (Nat.Even_Odd_False n); assumption.
Qed.

Lemma recognized_fmt_In (fmt : string) :
  recognized_fmt fmt = true <-> In fmt ["xyxy"; "xywh"; "cxcywh"].
Proof.
  unfold recognized_fmt. rewrite existsb_exists. split.
  - intros (s & Hin & Heq). apply String.eqb_eq in Heq. now subst.
  - intros Hin. exists fmt. split; [exact Hin | apply String.eqb_refl].
Qed.

(** C6: the CartesianBbox constructor raises InvalidFormat for every format
    tag outside xyxy, xywh, cxcywh (whatever the points); with a recognized
    tag it raises InvalidPointCount for fewer than 2 points and for an odd
    count, and in any case a bad count makes construction fail; the
    SphericalBbox constructor enforces the same two count checks. *)
Theorem constructors_validate :
  (forall pts fmt, ~ In fmt ["xyxy"; "xywh"; "cxcywh"] ->
     CartesianBbox.__init__ pts fmt = Raise InvalidFormat) /\
  (forall pts fmt, In fmt ["xyxy"; "xywh"; "cxcywh"] ->
     ((List.length pts < 2)%nat ->
        CartesianBbox.__init__ pts fmt = Raise (TooFewPoints "2D")) /\
     ((2 <= List.length pts)%nat -> Nat.Odd (List.length pts) ->
        CartesianBbox.__init__ pts fmt = Raise OddPointCount)) /\
  (forall pts fmt, (List.length pts < 2)%nat \/ Nat.Odd (List.length pts) ->
     raises (CartesianBbox.__init__ pts fmt) = true) /\
  (forall pts,
     ((List.length pts < 2)%nat ->
        SphericalBbox.__init__ pts = Raise (TooFewPoints "3D")) /\
     ((2 <= List.length pts)%nat -> Nat.Odd (List.length pts) ->
        SphericalBbox.__init__ pts = Raise OddPointCount)).
Proof.
  assert (Hcart : forall pts fmt, In fmt ["xyxy"; "xywh"; "cxcywh"] ->
     ((List.length pts < 2)%nat ->
        CartesianBbox.__init__ pts fmt = Raise (TooFewPoints "2D")) /\
     ((2 <= List.length pts)%nat -> Nat.Odd (List.length pts) ->
        CartesianBbox.__init__ pts fmt = Raise OddPointCount)).
  { intros pts fmt Hfmt. apply recognized_fmt_In in Hfmt.
    unfold CartesianBbox.__init__, len. fold (recognized_fmt fmt). rewrite Hfmt.
    split; apply count_checks. }
  repeat apply conj.
  - intros pts fmt Hfmt. unfold CartesianBbox.__init__. fold (recognized_fmt fmt).
    destruct (recognized_fmt fmt) eqn:E; [|reflexivity].
    apply recognized_fmt_In in E. contradiction.
  - exact Hcart.
  - intros pts fmt Hbad.
    destruct (recognized_fmt fmt) eqn:E.
    + apply recognized_fmt_In in E. destruct (Hcart pts fmt E) as [H1 H2].
      destruct (Nat.lt_ge_cases (List.length pts) 2) as [Hlt|Hge].
      * rewrite (H1 Hlt). reflexivity.
      * destruct Hbad as [Hlt|Hodd]; [lia|]. rewrite (H2 Hge Hodd). reflexivity.
    + unfold CartesianBbox.__init__. fold (recognized_fmt fmt). rewrite E. reflexivity.
  - intros pts. unfold SphericalBbox.__init__, len.
    split; apply count_checks.
Qed.

(** Construction succeeds in every other case, and stores its arguments. *)
Lemma constructors_accept (pts : list point) (fmt : string) :
  In fmt ["xyxy"; "xywh"; "cxcywh"] ->
  (2 <= List.length pts)%nat -> Nat.Even (List.length pts) ->
  CartesianBbox.__init__ pts fmt
    = Ok {| CartesianBbox.points := pts; CartesianBbox.fmt := fmt |} /\
  SphericalBbox.__init__ pts = Ok {| SphericalBbox.points := pts |}.
Proof.
  intros Hfmt Hge Hev. apply recognized_fmt_In in Hfmt.
  unfold CartesianBbox.__init__, SphericalBbox.__init__, len.
  fold (recognized_fmt fmt). rewrite Hfmt.
  split; apply count_checks; assumption.
Qed.

Lemma constructors_validate_witness :
  CartesianBbox.__init__ [Point2D (Int 1) (Int 2)] "bogus" = Raise InvalidFormat /\
  CartesianBbox.__init__ [Point2D (Int 1) (Int 2)] "xyxy" = Raise (TooFewPoints "2D") /\
  CartesianBbox.__init__ (Point2D (Int 1) (Int 2) :: main_points) "xywh"
    = Raise OddPointCount /\
  SphericalBbox.__init__ [] = Raise (TooFewPoints "3D").
Proof.
  destruct constructors_validate as (Hfmt & Hcart & _ & Hsph).
  repeat apply conj.
  - apply Hfmt. intros [H|[H|[H|[]]]]; discriminate H.
  - apply Hcart; simpl; [tauto | lia].
  - apply Hcart; simpl; [tauto | lia | exists 2%nat; reflexivity].
  - apply Hsph. simpl. lia.
Defined.

(** ** Normalization to corner pairs *)

Lemma range_step_ge_stop (n : Z) : 2 <= n -> range 0 2 n = Ok [0].
Proof.
  intros Hn. unfold range.
  destruct (Z.eqb_spec n 0) as [?|_]; [lia|].
  destruct (Z.ltb_spec 0 n) as [_|?]; [|lia].
  replace ((2 - 0 + n - 1) / n) with 1; [reflexivity|].
  apply (Z.div_unique_pos _ _ 1 1); lia.
Qed.

(** On a box of two points or more the loop of [get_points_as_xyxy] runs
    once, on the first pair. *)
Lemma convert_pairs_first_pair (p0 p1 : point) (rest : list point) (fmt : string)
    (conv : list point -> result (list point)) :
  CartesianBbox.convert_pairs
    {| CartesianBbox.points := p0 :: p1 :: rest; CartesianBbox.fmt := fmt |} conv
  = conv [p0; p1].
Proof.
  unfold CartesianBbox.convert_pairs. cbn [CartesianBbox.points].
  rewrite range_step_ge_stop.
  - cbn. change (Pos.to_nat 1) with 1%nat. cbn.
    destruct (conv [p0; p1]); reflexivity.
  - unfold len. cbn [List.length]. lia.
Qed.

Lemma get_points_as_xyxy_first_pair (p0 p1 : point) (rest : list point) :
  CartesianBbox.get_points_as_xyxy
    {| CartesianBbox.points := p0 :: p1 :: rest; CartesianBbox.fmt := "xywh" |}
  = CartesianBbox._from_xywh_to_xyxy [p0; p1] /\
  CartesianBbox.get_points_as_xyxy
    {| CartesianBbox.points := p0 :: p1 :: rest; CartesianBbox.fmt := "cxcywh" |}
  = CartesianBbox._from_cxcywh_to_xyxy [p0; p1].
Proof.
  unfold CartesianBbox.get_points_as_xyxy. cbn [CartesianBbox.fmt String.eqb Ascii.eqb Bool.eqb].
  rewrite !convert_pairs_first_pair.
  split.
  - destruct (CartesianBbox._from_xywh_to_xyxy [p0; p1]); reflexivity.
  - destruct (CartesianBbox._from_cxcywh_to_xyxy [p0; p1]); reflexivity.
Qed.

(** C1 (the code falls short of it): on the four-point cxcywh box of the
    module's main block the code returns the corners of the first pair only,
    two points, where converting every pair gives four. *)
Theorem get_points_as_xyxy_main_box :
  (b <- CartesianBbox.__init__ main_points "cxcywh" ;;
   CartesianBbox.get_points_as_xyxy b)
    = Ok [Point2D (Int 0) (Int 0); Point2D (Int 7) (Int 10)] /\
  convert_every_pair main_points CartesianBbox._from_cxcywh_to_xyxy
    = Ok [Point2D (Int 0) (Int 0); Point2D (Int 7) (Int 10);
          Point2D (Int 4) (Int 5); Point2D (Int 11) (Int 15)].
Proof. split; reflexivity. Qed.

(** C8: the xywh box (10,10,5,5) and the cxcywh box (12,12,5,5) normalize
    to the same corners (10,10)-(15,15); on integers cxcywh gives top-left =
    centre - floor(w/2), floor(h/2) and bottom-right = top-left + (w,h), and
    xywh gives bottom-right = top-left + (w,h); on any numbers the same
    steps are taken with [//], [-] and [+]. *)
Theorem format_equivalence :
  let xywh := {| CartesianBbox.points := [Point2D (Int 10) (Int 10); Point2D (Int 5) (Int 5)];
                 CartesianBbox.fmt := "xywh" |} in
  let cxcywh := {| CartesianBbox.points := [Point2D (Int 12) (Int 12); Point2D (Int 5) (Int 5)];
                   CartesianBbox.fmt := "cxcywh" |} in
  CartesianBbox.get_points_as_xyxy xywh
    = Ok [Point2D (Int 10) (Int 10); Point2D (Int 15) (Int 15)] /\
  CartesianBbox.get_points_as_xyxy cxcywh = CartesianBbox.get_points_as_xyxy xywh /\
  (forall cx cy w h : Z,
     CartesianBbox._from_cxcywh_to_xyxy [Point2D (Int cx) (Int cy); Point2D (Int w) (Int h)]
       = Ok [Point2D (Int (cx - w / 2)) (Int (cy - h / 2));
             Point2D (Int (cx - w / 2 + w)) (Int (cy - h / 2 + h))] /\
     2 * (w / 2) <= w < 2 * (w / 2) + 2 /\ 2 * (h / 2) <= h < 2 * (h / 2) + 2) /\
  (forall x1 y1 w h : Z,
     CartesianBbox._from_xywh_to_xyxy [Point2D (Int x1) (Int y1); Point2D (Int w) (Int h)]
       = Ok [Point2D (Int x1) (Int y1); Point2D (Int (x1 + w)) (Int (y1 + h))]) /\
  (forall cx cy w h : num,
     CartesianBbox._from_cxcywh_to_xyxy [Point2D cx cy; Point2D w h]
       = (hw <- num_floordiv w (Int 2) ;; x1 <- num_sub cx hw ;;
          hh <- num_floordiv h (Int 2) ;; y1 <- num_sub cy hh ;;
          x2 <- num_add x1 w ;; y2 <- num_add y1 h ;;
          Ok [Point2D x1 y1; Point2D x2 y2])) /\
  (forall x1 y1 w h : num,
     CartesianBbox._from_xywh_to_xyxy [Point2D x1 y1; Point2D w h]
       = (x2 <- num_add x1 w ;; y2 <- num_add y1 h ;;
          Ok [Point2D x1 y1; Point2D x2 y2])).
Proof.
  cbv zeta. repeat apply conj; try reflexivity.
  intros cx cy w h. repeat apply conj; try reflexivity.
  - pose proof (Z.div_mod w 2 ltac:(lia)).
    pose proof (Z.mod_pos_bound w 2 ltac:(lia)). lia.
  - pose proof (Z.div_mod w 2 ltac:(lia)).
    pose proof (Z.mod_pos_bound w 2 ltac:(lia)). lia.
  - pose proof (Z.div_mod h 2 ltac:(lia)).
    pose proof (Z.mod_pos_bound h 2 ltac:(lia)). lia.
  - pose proof (Z.div_mod h 2 ltac:(lia)).
    pose proof (Z.mod_pos_bound h 2 ltac:(lia)). lia.
Qed.

(** ** Doubles *)

Lemma float_of_spec (x : float) (s : spec_float) : Prim2SF x = s -> x = SF2Prim s.
Proof. intros <-. symmetry. apply SF2Prim_Prim2SF. Qed.

Lemma SFeqb_refl (s : spec_float) : s <> S754_nan -> SFeqb s s = true.
Proof.
  unfold SFeqb. destruct s as [[]|[]| |[] m e]; cbn; intros H;
    try reflexivity; try congruence;
    rewrite Z.compare_refl; fold (Pos.compare m m); rewrite Pos.compare_refl;
    reflexivity.
Qed.

Lemma is_nan_spec (x : float) : is_nan x = true <-> Prim2SF x = S754_nan.
Proof.
  unfold is_nan. rewrite eqb_spec, negb_true_iff. split.
  - intros H. destruct (Prim2SF x) eqn:E; try reflexivity;
      rewrite SFeqb_refl in H; discriminate.
  - intros ->. reflexivity.
Qed.

Lemma is_finite_spec (x : float) :
  is_finite x = true ->
  exists s, Prim2SF x = S754_zero s \/ exists m e, Prim2SF x = S754_finite s m e.
Proof.
  unfold is_finite, is_infinity. rewrite negb_true_iff, orb_false_iff.
  intros [Hnan Hinf].
  rewrite eqb_spec, abs_spec in Hinf.
  destruct (Prim2SF x) as [s|s| |s m e] eqn:E.
  - exists s. now left.
  - discriminate Hinf.
  - apply is_nan_spec in E. congruence.
  - exists s. right. now exists m, e.
Qed.


(** A finite double times zero is a zero. *)
Lemma zero_mul_finite (x : float) :
  is_finite x = true -> (0 * x = 0 \/ 0 * x = -0)%float.
Proof.
  intros H. destruct (is_finite_spec x H) as (s & Hs).
  assert (E : Prim2SF (0 * x)%float = S754_zero s).
  { rewrite mul_spec. destruct Hs as [->|(m & e & ->)]; destruct s; reflexivity. }
  apply float_of_spec in E. rewrite E. destruct s; [right | left]; reflexivity.
Qed.

Lemma math_1_finite (func : float -> float) (x : float) :
  is_finite (func x) = true -> math_1 func (Float x) = Ok (func x).
Proof.
  unfold math_1, is_finite. cbn [as_float bind].
  rewrite negb_true_iff, orb_false_iff. intros [-> ->]. reflexivity.
Qed.


Lemma toy_libm_c99 : libm_c99 toy_libm.
Proof.
  split; cbn [libm_sin libm_cos libm_acos toy_libm].
  - reflexivity.
  - reflexivity.
  - reflexivity.
  - intros x ->. reflexivity.
  - intros x ->. unfold finite_or.
    destruct (is_finite (x - x * x * x / 6)) eqn:E; [exact E | reflexivity].
  - intros x ->. unfold finite_or.
    destruct (is_finite (1 - x * x / 2)) eqn:E; [exact E | reflexivity].
Qed.

(** ** Conversion of an int to a double

    [float_of_int] rounds with [binary_normalize]; what follows shows that
    the result is a double in canonical form, so that the comparisons of
    the kernel's doubles can be read off its sign and exponent. *)

Lemma digits2_pos_log2 (p : positive) :
  Z.pos (digits2_pos p) = Z.log2 (Z.pos p) + 1.
Proof.
  assert (H : forall q, digits2_pos q = Pos.size q)
    by (induction q; cbn; congruence).
  destruct p; cbn [Z.log2]; rewrite ?H; cbn [digits2_pos Pos.size]; rewrite ?H; lia.
Qed.

Lemma Zdigits2_mono (a b : Z) : 0 < a <= b -> Zdigits2 a <= Zdigits2 b.
Proof.
  intros [Ha Hab]. destruct a as [|p|p]; try lia. destruct b as [|q|q]; try lia.
  cbn [Zdigits2]. rewrite !digits2_pos_log2.
  pose proof (Z.log2_le_mono (Z.pos p) (Z.pos q) Hab). lia.
Qed.

Lemma Zdigits2_pos (a : Z) : 0 <= a -> 0 < Zdigits2 a -> exists p, a = Z.pos p.
Proof. destruct a as [|p|p]; cbn; intros; try lia. now exists p. Qed.

Lemma shr_1_digits (s : shr_record) :
  0 <= shr_m s ->
  0 <= shr_m (shr_1 s) /\
  Zdigits2 (shr_m (shr_1 s)) = Z.max 0 (Zdigits2 (shr_m s) - 1).
Proof.
  destruct s as [m r t]. cbn [shr_m]. intros Hm.
  destruct m as [|[p|p|]|p]; cbn [shr_1 shr_m Zdigits2 digits2_pos];
    rewrite ?Pos2Z.inj_succ; lia.
Qed.

Lemma iter_shr_1_digits (k : positive) : forall s,
  0 <= shr_m s ->
  0 <= shr_m (iter_pos shr_1 k s) /\
  Zdigits2 (shr_m (iter_pos shr_1 k s)) = Z.max 0 (Zdigits2 (shr_m s) - Z.pos k).
Proof.
  induction k as [k IH|k IH|]; intros s Hs; cbn [iter_pos].
  - destruct (shr_1_digits s Hs) as [H1 E1].
    destruct (IH _ H1) as [H2 E2]. destruct (IH _ H2) as [H3 E3].
    split; [exact H3|]. rewrite E3, E2, E1. lia.
  - destruct (IH _ Hs) as [H2 E2]. destruct (IH _ H2) as [H3 E3].
    split; [exact H3|]. rewrite E3, E2. lia.
  - apply shr_1_digits, Hs.
Qed.

Lemma digits2_pos_iter_xO (k p : positive) :
  digits2_pos (Pos.iter xO p k) = (digits2_pos p + k)%positive.
Proof.
  induction k as [|k IH] using Pos.peano_ind.
  - cbn. lia.
  - rewrite Pos.iter_succ. cbn [digits2_pos]. rewrite IH. lia.
Qed.

Lemma round_nearest_even_bounds (m : Z) (l : location) :
  m <= round_nearest_even m l <= m + 1.
Proof.
  destruct l as [|[]]; cbn; try lia. destruct (Z.even m); lia.
Qed.

Lemma fexp_normal (d : Z) : -1074 <= d - 53 -> fexp prec emax d = d - 53.
Proof. unfold fexp, SpecFloat.emin, prec, emax. lia. Qed.

Lemma shr_m_of_loc (m : Z) (l : location) : shr_m (shr_record_of_loc m l) = m.
Proof. destruct l as [|[]]; reflexivity. Qed.

(** Shifting a mantissa of 53 digits or more down to its canonical
    exponent leaves exactly 53 digits. *)
Lemma shr_fexp_digits (m e : Z) (l : location) :
  0 < m -> 53 <= Zdigits2 m -> -1074 <= Zdigits2 m + e - 53 ->
  0 <= shr_m (fst (shr_fexp prec emax m e l)) /\
  Zdigits2 (shr_m (fst (shr_fexp prec emax m e l))) = 53 /\
  snd (shr_fexp prec emax m e l) = Zdigits2 m + e - 53.
Proof.
  intros Hm Hd Hn. unfold shr_fexp, shr. rewrite fexp_normal by exact Hn.
  destruct (Zdigits2 m + e - 53 - e) as [|k|k] eqn:E; cbn [fst snd].
  - rewrite shr_m_of_loc. lia.
  - destruct (iter_shr_1_digits k (shr_record_of_loc m l)) as [H1 H2];
      rewrite ?shr_m_of_loc in *; lia.
  - lia.
Qed.

Lemma binary_round_aux_shape (sx : bool) (m e : Z) :
  0 < m -> 53 <= Zdigits2 m -> -1074 <= Zdigits2 m + e - 53 ->
  match binary_round_aux prec emax sx m e loc_Exact with
  | S754_finite s' m' e' =>
      s' = sx /\ bounded prec emax m' e' = true /\ Zdigits2 m + e - 53 <= e'
  | S754_infinity s' => s' = sx
  | _ => False
  end.
Proof.
  intros Hm Hd Hn. unfold binary_round_aux.
  destruct (shr_fexp_digits m e loc_Exact Hm Hd Hn) as (H1 & D1 & E1).
  destruct (shr_fexp prec emax m e loc_Exact) as [mrs1 e1]. cbn [fst snd] in *.
  destruct (Zdigits2_pos _ H1 ltac:(lia)) as [q1 Hq1].
  pose proof (round_nearest_even_bounds (shr_m mrs1) (loc_of_shr_record mrs1)) as Hr.
  set (m2 := round_nearest_even (shr_m mrs1) (loc_of_shr_record mrs1)) in *.
  assert (Hm2 : 0 < m2) by lia.
  assert (Hd2 : 53 <= Zdigits2 m2).
  { rewrite <- D1. apply Zdigits2_mono. lia. }
  destruct (shr_fexp_digits m2 e1 loc_Exact Hm2 Hd2 ltac:(lia)) as (H2 & D2 & E2).
  destruct (shr_fexp prec emax m2 e1 loc_Exact) as [mrs2 e2]. cbn [fst snd] in *.
  destruct (Zdigits2_pos _ H2 ltac:(lia)) as [q2 Hq2]. rewrite Hq2 in *.
  cbn [Zdigits2] in D2.
  destruct (Z.leb_spec e2 (emax - prec)) as [Hle|Hgt]; [|reflexivity].
  repeat split; [|lia].
  unfold bounded, canonical_mantissa. rewrite D2, fexp_normal by lia.
  apply andb_true_intro. split; [apply Z.eqb_eq; lia | apply Z.leb_le, Hle].
Qed.

(** Rounding an integer to a double: a finite double in canonical form,
    of the sign of the integer, or an infinity of that sign. *)
Lemma binary_round_int (sx : bool) (p : positive) :
  match binary_round prec emax sx p 0 with
  | S754_finite s' m' e' =>
      s' = sx /\ bounded prec emax m' e' = true /\ Z.pos (digits2_pos p) - 53 <= e'
  | S754_infinity s' => s' = sx
  | _ => False
  end.
Proof.
  unfold binary_round, shl_align. rewrite Z.add_0_r, Z.sub_0_r.
  assert (Hd : 0 < Z.pos (digits2_pos p)) by lia.
  rewrite fexp_normal by lia.
  destruct (Z.pos (digits2_pos p) - 53) as [|k|k] eqn:E.
  - pose proof (binary_round_aux_shape sx (Z.pos p) 0) as H.
    cbn [Zdigits2] in H. rewrite Z.add_0_r, E in H. apply H; lia.
  - pose proof (binary_round_aux_shape sx (Z.pos p) 0) as H.
    cbn [Zdigits2] in H. rewrite Z.add_0_r, E in H. apply H; lia.
  - pose proof (binary_round_aux_shape sx (Z.pos (Pos.iter xO p k)) (Z.neg k)) as H.
    cbn [Zdigits2] in H. rewrite digits2_pos_iter_xO, Pos2Z.inj_add in H.
    assert (H' := H ltac:(lia) ltac:(lia) ltac:(lia)). clear H.
    destruct (binary_round_aux _ _ _ _ _ _) as [| | |s' m' e']; try exact H'.
    destruct H' as (Hs & Hb & He). repeat split; auto. lia.
Qed.

(** [float(n)] for a nonzero int: it overflows, or it is a finite double,
    in canonical form, of the sign of [n], whose exponent tells its
    magnitude. *)
Lemma float_of_int_shape (n : Z) :
  n <> 0 ->
  float_of_int n = Raise OverflowError \/
  exists m e,
    float_of_int n = Ok (SF2Prim (S754_finite (n <? 0) m e)) /\
    Prim2SF (SF2Prim (S754_finite (n <? 0) m e)) = S754_finite (n <? 0) m e /\
    Z.log2 (Z.abs n) - 52 <= e.
Proof.
  intros Hn. unfold float_of_int, binary_normalize.
  destruct n as [|p|p]; [contradiction| |].
  - pose proof (binary_round_int false p) as H.
    destruct (binary_round prec emax false p 0) as [| | |s m e]; try contradiction.
    + now left.
    + destruct H as (-> & Hb & He). right. exists m, e. repeat split.
      * apply Prim2SF_SF2Prim. exact Hb.
      * rewrite digits2_pos_log2 in He. cbn [Z.abs]. lia.
  - pose proof (binary_round_int true p) as H.
    destruct (binary_round prec emax true p 0) as [| | |s m e]; try contradiction.
    + now left.
    + destruct H as (-> & Hb & He). right. exists m, e. repeat split.
      * apply Prim2SF_SF2Prim. exact Hb.
      * rewrite digits2_pos_log2 in He. cbn [Z.abs]. lia.
Qed.

Lemma is_finite_of_spec (x : float) (s : bool) (m : positive) (e : Z) :
  Prim2SF x = S754_finite s m e -> is_finite x = true.
Proof.
  intros H. unfold is_finite, is_nan, is_infinity.
  rewrite !eqb_spec, abs_spec, H.
  rewrite SFeqb_refl by discriminate. reflexivity.
Qed.

(** An int that converts to a double converts to a finite one. *)
Lemma float_of_int_finite (n : Z) (v : float) :
  float_of_int n = Ok v -> is_finite v = true.
Proof.
  destruct (Z.eq_dec n 0) as [->|Hn]; [intros [= <-]; reflexivity|].
  destruct (float_of_int_shape n Hn) as [E|(m & e & E & Hs & _)]; rewrite E.
  - discriminate.
  - set (w := SF2Prim (S754_finite (n <? 0) m e)) in *.
    intros Hv. assert (v = w) as -> by congruence.
    eapply is_finite_of_spec, Hs.
Qed.


(** ** The forward transform *)

Lemma cartesian2sphere_polar (m : libm) (pt : list num) :
  cartesian2sphere m pt =
  (p <- polar pt ;;
   let '(ux, uy, theta) := p in
   sin_theta <- math_sin m (Float theta) ;;
   z <- math_cos m (Float theta) ;;
   Ok [Float (ux * sin_theta); Float (uy * sin_theta); Float z]).
Proof.
  unfold cartesian2sphere, polar.
  destruct (getitem pt 0); cbn [bind]; [|reflexivity].
  destruct (getitem center 0); cbn [bind]; [|reflexivity].
  destruct (num_sub _ _); cbn [bind]; [|reflexivity].
  destruct (truediv _ _); cbn [bind]; [|reflexivity].
  destruct (getitem pt 1); cbn [bind]; [|reflexivity].
  destruct (getitem center 1); cbn [bind]; [|reflexivity].
  destruct (num_sub _ _); cbn [bind]; [|reflexivity].
  destruct (truediv _ _); cbn [bind]; [|reflexivity].
  destruct (math_sqrt _); cbn [bind]; [|reflexivity].
  destruct (if num_ne _ _ then _ else _) as [[ux uy]|]; cbn [bind fst snd];
    reflexivity.
Qed.

(** C4: the principal point maps to exactly (0, 0, 1); and the xyxy box
    (960,540)-(1100,600) maps to the spherical box whose first point is
    (0, 0, 1) and whose second point is the unit direction of the pixel
    offset scaled by sin(theta), with third coordinate cos(theta), at the
    polar angle theta = D * r, r = sqrt((140/f)^2 + (60/f)^2). *)
Theorem pole_fixed_point_and_end_to_end (m : libm) (Hm : libm_c99 m) :
  cartesian2sphere m center = Ok (Point3D (Float 0) (Float 0) (Float 1)) /\
  let dx := ((1100 - 960) / f)%float in
  let dy := ((600 - 540) / f)%float in
  let r := sqrt (dx * dx + dy * dy) in
  let theta := (D * r)%float in
  (b <- CartesianBbox.__init__
          [Point2D (Int 960) (Int 540); Point2D (Int 1100) (Int 600)] "xyxy" ;;
   bbox_to_spherical m b)
  = Ok {| SphericalBbox.points :=
            [Point3D (Float 0) (Float 0) (Float 1);
             Point3D (Float (dx / r * libm_sin m theta))
                     (Float (dy / r * libm_sin m theta))
                     (Float (libm_cos m theta))] |}.
Proof.
  assert (Hpole : cartesian2sphere m center
                  = Ok (Point3D (Float 0) (Float 0) (Float 1))).
  { rewrite cartesian2sphere_polar.
    change (polar center) with (Ok (0, 0, 0)%float). cbn [bind].
    unfold math_sin, math_cos.
    rewrite !math_1_finite;
      rewrite ?(sin_zero m Hm), ?(cos_zero m Hm); reflexivity. }
  split; [exact Hpole|].
  cbv zeta.
  change (CartesianBbox.__init__ _ "xyxy")
    with (Ok {| CartesianBbox.points :=
                  [Point2D (Int 960) (Int 540); Point2D (Int 1100) (Int 600)];
                CartesianBbox.fmt := "xyxy" |}).
  cbn [bind]. unfold bbox_to_spherical.
  change (CartesianBbox.get_points_as_xyxy _)
    with (Ok [Point2D (Int 960) (Int 540); Point2D (Int 1100) (Int 600)]).
  cbn [bind for_in].
  change (convert_point m (Point2D (Int 960) (Int 540)))
    with (cartesian2sphere m center).
  rewrite Hpole. cbn [bind app].
  change (convert_point m (Point2D (Int 1100) (Int 600)))
    with (cartesian2sphere m [Int 1100; Int 600]).
  rewrite cartesian2sphere_polar.
  set (theta := (D * sqrt ((1100 - 960) / f * ((1100 - 960) / f)
                           + (600 - 540) / f * ((600 - 540) / f)))%float).
  assert (Hpolar : polar [Int 1100; Int 600]
                   = Ok (((1100 - 960) / f / sqrt ((1100 - 960) / f * ((1100 - 960) / f)
                           + (600 - 540) / f * ((600 - 540) / f)))%float,
                         ((600 - 540) / f / sqrt ((1100 - 960) / f * ((1100 - 960) / f)
                           + (600 - 540) / f * ((600 - 540) / f)))%float,
                         theta))
    by (vm_compute; reflexivity).
  rewrite Hpolar. cbn [bind].
  unfold math_sin, math_cos.
  rewrite !math_1_finite.
  - reflexivity.
  - apply (cos_finite m Hm). reflexivity.
  - apply (sin_finite m Hm). reflexivity.
Qed.

Lemma pole_fixed_point_and_end_to_end_witness :
  cartesian2sphere toy_libm center = Ok (Point3D (Float 0) (Float 0) (Float 1)) /\
  raises (b <- CartesianBbox.__init__
                 [Point2D (Int 960) (Int 540); Point2D (Int 1100) (Int 600)] "xyxy" ;;
          bbox_to_spherical toy_libm b) = false.
Proof.
  destruct (pole_fixed_point_and_end_to_end toy_libm toy_libm_c99) as [Hpole Hbox].
  split; [exact Hpole|]. cbv zeta in Hbox. rewrite Hbox. reflexivity.
Defined.

(** ** The inverse transform *)

Lemma math_1_as_float (func : float -> float) (a : num) (v : float) :
  as_float a = Ok v -> math_1 func a = math_1 func (Float v).
Proof. unfold math_1. intros ->. reflexivity. Qed.








Lemma finite_num_as_float (a : num) :
  finite_num a = true -> exists v, as_float a = Ok v /\ is_finite v = true.
Proof.
  destruct a as [n|v]; cbn [finite_num as_float].
  - destruct (float_of_int n) as [v|e] eqn:E; [|discriminate].
    intros _. exists v. split; [reflexivity | apply (float_of_int_finite n), E].
  - intros H. now exists v.
Qed.

Lemma num_mul_float (u : float) (a : num) (v : float) :
  as_float a = Ok v -> num_mul (Float u) a = Ok (Float (u * v)).
Proof. intros E. destruct a; unfold num_mul, arith; rewrite E; reflexivity. Qed.

(** At the pole the radial scale is zero: a finite coordinate is sent to the
    coordinate of the principal point. *)
Lemma pole_coordinate (a : num) (k : Z) (kf : float) :
  finite_num a = true ->
  float_of_int k = Ok kf -> (0 + kf = kf)%float -> (-0 + kf = kf)%float ->
  (ra <- num_mul (Float 0) a ;; raf <- num_mul ra (Float f) ;; num_add raf (Int k))
  = Ok (Float kf).
Proof.
  intros Ha Hk Hpos Hneg. destruct (finite_num_as_float a Ha) as (v & Ea & Hfin).
  rewrite (num_mul_float 0 a v Ea).
  cbn [bind num_mul arith as_float num_add]. rewrite Hk. cbn [bind].
  destruct (zero_mul_finite v Hfin) as [-> | ->].
  - change (0 * f)%float with 0%float. now rewrite Hpos.
  - change (-0 * f)%float with (-0)%float. now rewrite Hneg.
Qed.

(** C10, as the code has it: with z exactly 1 (the int or the double) and
    finite x and y, [sphere2cartesian] returns exactly the principal point,
    whatever x and y are. *)
Theorem sphere2cartesian_pole (m : libm) (Hm : libm_c99 m) (x y z : num) :
  z = Int 1 \/ z = Float 1 ->
  finite_num x = true -> finite_num y = true ->
  sphere2cartesian m [x; y; z] = Ok [Float 960; Float 540].
Proof.
  intros Hz Hx Hy. unfold sphere2cartesian.
  change (getitem [x; y; z] 2) with (Ok z).
  change (getitem [x; y; z] 1) with (Ok y).
  change (getitem [x; y; z] 0) with (Ok x).
  change (getitem center 0) with (Ok (Int 960)).
  change (getitem center 1) with (Ok (Int 540)).
  cbn [bind].
  assert (Hacos : math_acos m z = Ok 0%float).
  { unfold math_acos. rewrite (math_1_as_float _ z 1%float).
    - rewrite math_1_finite; rewrite (acos_one m Hm); reflexivity.
    - destruct Hz as [-> | ->]; reflexivity. }
  rewrite Hacos. cbn [bind].
  change (float_truediv 0 D) with (Ok 0%float). cbn [bind].
  assert (Hne : num_ne z (Int 1) = false) by (destruct Hz as [-> | ->]; reflexivity).
  rewrite Hne. cbn [bind].
  pose proof (pole_coordinate x 960 960%float Hx eq_refl eq_refl eq_refl) as Ex.
  pose proof (pole_coordinate y 540 540%float Hy eq_refl eq_refl eq_refl) as Ey.
  destruct (num_mul (Float 0) x) as [rx|]; [|discriminate Ex]. cbn [bind] in *.
  destruct (num_mul rx (Float f)) as [rxf|]; [|discriminate Ex]. cbn [bind] in *.
  rewrite Ex. cbn [bind].
  destruct (num_mul (Float 0) y) as [ry|]; [|discriminate Ey]. cbn [bind] in *.
  destruct (num_mul ry (Float f)) as [ryf|]; [|discriminate Ey]. cbn [bind] in *.
  rewrite Ey. reflexivity.
Qed.

Lemma sphere2cartesian_pole_witness :
  sphere2cartesian toy_libm [Int 3; Float (-7.5); Int 1] = Ok [Float 960; Float 540].
Proof.
  apply (sphere2cartesian_pole toy_libm toy_libm_c99 (Int 3) (Float (-7.5)) (Int 1)).
  - left. reflexivity.
  - reflexivity.
  - reflexivity.
Defined.

(** The result is the principal point: it compares equal to [center]. *)
Lemma principal_point_eq_center :
  Forall2 (fun a b => num_eqb a b = true) [Float 960; Float 540] center.
Proof. repeat constructor. Qed.

(** C10 as stated fails: with z = 1 and an infinite x the first coordinate
    of the result is NaN, for every C library, and an int x beyond the range
    of a double raises [OverflowError]. *)
Lemma sphere2cartesian_pole_not_for_all_xy :
  (forall m, libm_c99 m ->
     sphere2cartesian m [Float infinity; Float 0; Float 1] = Ok [Float nan; Float 540] /\
     sphere2cartesian m [Int (10 ^ 400); Int 0; Int 1] = Raise OverflowError) /\
  libm_c99 toy_libm /\
  num_eqb (Float nan) (Int 960) = false.
Proof.
  split; [|split; [exact toy_libm_c99 | reflexivity]].
  intros m Hm.
  assert (Hacos : math_acos m (Float 1) = Ok 0%float).
  { unfold math_acos. rewrite math_1_finite; rewrite (acos_one m Hm); reflexivity. }
  assert (Hacos' : math_acos m (Int 1) = Ok 0%float) by exact Hacos.
  split; unfold sphere2cartesian.
  - change (getitem [Float infinity; Float 0; Float 1] 2) with (Ok (Float 1)).
    cbn [bind]. rewrite Hacos. reflexivity.
  - change (getitem [Int (10 ^ 400); Int 0; Int 1] 2) with (Ok (Int 1)).
    cbn [bind]. rewrite Hacos'. vm_compute. reflexivity.
Qed.

(** ** Sign symmetry of the operations on doubles *)

Lemma binary_round_aux_opp (s : bool) (m e : Z) (l : location) :
  binary_round_aux prec emax (negb s) m e l
  = SFopp (binary_round_aux prec emax s m e l).
Proof.
  unfold binary_round_aux.
  destruct (shr_fexp prec emax m e l) as [mrs1 e1].
  destruct (shr_fexp prec emax _ e1 loc_Exact) as [mrs2 e2].
  destruct (shr_m mrs2); [reflexivity| |reflexivity].
  destruct (e2 <=? emax - prec); reflexivity.
Qed.

Lemma SFmul_opp_l (a b : spec_float) :
  SFmul prec emax (SFopp a) b = SFopp (SFmul prec emax a b).
Proof.
  destruct a as [sa|sa| |sa ma ea], b as [sb|sb| |sb mb eb]; cbn [SFopp SFmul];
    try reflexivity; try (destruct sa, sb; reflexivity).
  rewrite <- binary_round_aux_opp. destruct sa, sb; reflexivity.
Qed.

Lemma SFmul_opp_r (a b : spec_float) :
  SFmul prec emax a (SFopp b) = SFopp (SFmul prec emax a b).
Proof.
  destruct a as [sa|sa| |sa ma ea], b as [sb|sb| |sb mb eb]; cbn [SFopp SFmul];
    try reflexivity; try (destruct sa, sb; reflexivity).
  rewrite <- binary_round_aux_opp. destruct sa, sb; reflexivity.
Qed.

Lemma SFdiv_opp_l (a b : spec_float) :
  SFdiv prec emax (SFopp a) b = SFopp (SFdiv prec emax a b).
Proof.
  destruct a as [sa|sa| |sa ma ea], b as [sb|sb| |sb mb eb]; cbn [SFopp SFdiv];
    try reflexivity; try (destruct sa, sb; reflexivity).
  destruct (SFdiv_core_binary prec emax (Z.pos ma) ea (Z.pos mb) eb) as [[mz ez] lz].
  rewrite <- binary_round_aux_opp. destruct sa, sb; reflexivity.
Qed.

Lemma SFopp_involutive (a : spec_float) : SFopp (SFopp a) = a.
Proof. destruct a as [[]|[]| |[] m e]; reflexivity. Qed.

Lemma mul_opp_l (a b : float) : (- a * b = - (a * b))%float.
Proof.
  apply Prim2SF_inj. rewrite mul_spec, !opp_spec, mul_spec. apply SFmul_opp_l.
Qed.

Lemma mul_opp_opp (a b : float) : (- a * - b = a * b)%float.
Proof.
  apply Prim2SF_inj. rewrite !mul_spec, !opp_spec.
  unfold SF64mul. rewrite SFmul_opp_l, SFmul_opp_r. apply SFopp_involutive.
Qed.

Lemma div_opp_l (a b : float) : (- a / b = - (a / b))%float.
Proof.
  apply Prim2SF_inj. rewrite div_spec, !opp_spec, div_spec. apply SFdiv_opp_l.
Qed.

Lemma opp_involutive (a : float) : (- - a = a)%float.
Proof. apply Prim2SF_inj. rewrite !opp_spec. apply SFopp_involutive. Qed.

(** [float(-n)] is [-float(n)] for a nonzero int. *)
Lemma float_of_int_opp (n : Z) :
  n <> 0 ->
  float_of_int (- n)
  = match float_of_int n with Ok v => Ok (- v)%float | Raise e => Raise e end.
Proof.
  intros Hn. unfold float_of_int, binary_normalize.
  assert (H : forall p, binary_round prec emax true p 0
                        = SFopp (binary_round prec emax false p 0)).
  { intros p. unfold binary_round.
    destruct (shl_align p 0 _) as [mz ez]. apply (binary_round_aux_opp false). }
  assert (Hprim : forall s, SF2Prim (SFopp s) = (- SF2Prim s)%float).
  { intros s. destruct s as [[]|[]| |[] m e]; try reflexivity.
    cbn [SFopp SF2Prim]. symmetry. apply opp_involutive. }
  destruct n as [|p|p]; [contradiction| |]; cbn [Z.opp].
  - rewrite H. destruct (binary_round prec emax false p 0) as [s|s| |s m e];
      cbn [SFopp]; try reflexivity.
    + f_equal. apply (Hprim (S754_zero s)).
    + f_equal. apply (Hprim (S754_finite s m e)).
  - rewrite H.
    pose proof (binary_round_int false p) as Hshape.
    destruct (binary_round prec emax false p 0) as [s|s| |s m e];
      cbn [SFopp]; try contradiction; try reflexivity.
    f_equal. rewrite <- (Hprim (S754_finite (negb s) m e)). cbn [SFopp].
    now rewrite negb_involutive.
Qed.

(** ** Mirror symmetry of the forward transform *)

Lemma truediv_opp (n : Z) (b : float) :
  n <> 0 ->
  truediv (Int (- n)) b
  = match truediv (Int n) b with Ok x => Ok (- x)%float | Raise e => Raise e end.
Proof.
  intros Hn. unfold truediv. cbn [as_float]. rewrite (float_of_int_opp n Hn).
  destruct (float_of_int n) as [v|e]; cbn [bind]; [|reflexivity].
  unfold float_truediv. destruct (b =? 0)%float; [reflexivity|].
  now rewrite div_opp_l.
Qed.

Lemma float_truediv_opp (x r : float) :
  float_truediv (- x) r
  = match float_truediv x r with Ok u => Ok (- u)%float | Raise e => Raise e end.
Proof.
  unfold float_truediv. destruct (r =? 0)%float; [reflexivity|].
  now rewrite div_opp_l.
Qed.

Lemma polar_mirror_x (a : Z) (py : num) :
  a <> 0 ->
  polar [Int (960 - a); py]
  = match polar [Int (960 + a); py] with
    | Ok (ux, uy, theta) => Ok ((- ux)%float, uy, theta)
    | Raise e => Raise e
    end.
Proof.
  intros Ha. unfold polar.
  change (getitem [Int (960 - a); py] 0) with (Ok (Int (960 - a))).
  change (getitem [Int (960 + a); py] 0) with (Ok (Int (960 + a))).
  change (getitem [Int (960 - a); py] 1) with (Ok py).
  change (getitem [Int (960 + a); py] 1) with (Ok py).
  change (getitem center 0) with (Ok (Int 960)).
  change (getitem center 1) with (Ok (Int 540)).
  cbn [bind num_sub arith].
  replace (960 - a - 960) with (- a) by lia.
  replace (960 + a - 960) with a by lia.
  rewrite (truediv_opp a f Ha).
  destruct (truediv (Int a) f) as [x|e]; cbn [bind]; [|reflexivity].
  destruct (num_sub py (Int 540)) as [dy|e]; cbn [bind]; [|reflexivity].
  destruct (truediv dy f) as [y|e]; cbn [bind]; [|reflexivity].
  rewrite mul_opp_opp.
  destruct (math_sqrt (Float (x * x + y * y))) as [r|e]; cbn [bind]; [|reflexivity].
  destruct (num_ne (Float r) (Int 0)); cbn [bind fst snd]; [|reflexivity].
  rewrite float_truediv_opp.
  destruct (float_truediv x r) as [ux|e]; cbn [bind]; [|reflexivity].
  destruct (float_truediv y r) as [uy|e]; reflexivity.
Qed.

Lemma polar_mirror_y (px : num) (b : Z) :
  b <> 0 ->
  polar [px; Int (540 - b)]
  = match polar [px; Int (540 + b)] with
    | Ok (ux, uy, theta) => Ok (ux, (- uy)%float, theta)
    | Raise e => Raise e
    end.
Proof.
  intros Hb. unfold polar.
  change (getitem [px; Int (540 - b)] 0) with (Ok px).
  change (getitem [px; Int (540 + b)] 0) with (Ok px).
  change (getitem [px; Int (540 - b)] 1) with (Ok (Int (540 - b))).
  change (getitem [px; Int (540 + b)] 1) with (Ok (Int (540 + b))).
  change (getitem center 0) with (Ok (Int 960)).
  change (getitem center 1) with (Ok (Int 540)).
  cbn [bind].
  destruct (num_sub px (Int 960)) as [dx|e]; cbn [bind]; [|reflexivity].
  destruct (truediv dx f) as [x|e]; cbn [bind]; [|reflexivity].
  cbn [num_sub arith bind].
  replace (540 - b - 540) with (- b) by lia.
  replace (540 + b - 540) with b by lia.
  rewrite (truediv_opp b f Hb).
  destruct (truediv (Int b) f) as [y|e]; cbn [bind]; [|reflexivity].
  rewrite mul_opp_opp.
  destruct (math_sqrt (Float (x * x + y * y))) as [r|e]; cbn [bind]; [|reflexivity].
  destruct (num_ne (Float r) (Int 0)); cbn [bind fst snd]; [|reflexivity].
  destruct (float_truediv x r) as [ux|e]; cbn [bind]; [|reflexivity].
  rewrite float_truediv_opp.
  destruct (float_truediv y r) as [uy|e]; reflexivity.
Qed.

(** X1: The forward transform is symmetric about the principal point: for
    an int pixel column [960 + a] off the vertical centre line ([a <> 0]),
    the mirror column [960 - a] gives the same point of the sphere with its
    x negated, or the same exception; likewise for a row [540 + b] off the
    horizontal centre line and y.  (A pixel on a centre line is its own
    mirror image, and its coordinate there is a zero, not negated.) *)
Theorem forward_transform_mirror (m : libm) (a b : Z) (px py : num) :
  (a <> 0 ->
   cartesian2sphere m [Int (960 - a); py]
   = match cartesian2sphere m [Int (960 + a); py] with
     | Ok [Float x; y; z] => Ok [Float (- x); y; z]
     | r => r
     end) /\
  (b <> 0 ->
   cartesian2sphere m [px; Int (540 - b)]
   = match cartesian2sphere m [px; Int (540 + b)] with
     | Ok [x; Float y; z] => Ok [x; Float (- y); z]
     | r => r
     end).
Proof.
  split; intros H; rewrite !cartesian2sphere_polar.
  - rewrite (polar_mirror_x a py H).
    destruct (polar [Int (960 + a); py]) as [[[ux uy] theta]|e]; cbn [bind]; [|reflexivity].
    destruct (math_sin m (Float theta)) as [s|e]; cbn [bind]; [|reflexivity].
    destruct (math_cos m (Float theta)) as [z|e]; cbn [bind]; [|reflexivity].
    now rewrite mul_opp_l.
  - rewrite (polar_mirror_y px b H).
    destruct (polar [px; Int (540 + b)]) as [[[ux uy] theta]|e]; cbn [bind]; [|reflexivity].
    destruct (math_sin m (Float theta)) as [s|e]; cbn [bind]; [|reflexivity].
    destruct (math_cos m (Float theta)) as [z|e]; cbn [bind]; [|reflexivity].
    now rewrite mul_opp_l.
Qed.

Lemma forward_transform_mirror_witness :
  cartesian2sphere toy_libm [Int 820; Int 600]
  = match cartesian2sphere toy_libm [Int 1100; Int 600] with
    | Ok [Float x; y; z] => Ok [Float (- x); y; z]
    | r => r
    end.
Proof.
  apply (proj1 (forward_transform_mirror toy_libm 140 1 (Int 0) (Int 600))).
  discriminate.
Defined.

(** ** Edges of the two transforms *)

(** X2: The inverse transform at the antipode of the pole: the sine recovered
    from z = -1 is zero and the radial scale is divided by it. *)
Theorem inverse_transform_south_pole (m : libm) (x y z : num) :
  z = Int (-1) \/ z = Float (-1) ->
  is_finite (libm_acos m (-1)) = true ->
  sphere2cartesian m [x; y; z] = Raise ZeroDivisionError.
Proof.
  intros Hz Hacos. unfold sphere2cartesian.
  change (getitem [x; y; z] 2) with (Ok z). cbn [bind].
  assert (E : math_acos m z = Ok (libm_acos m (-1))).
  { unfold math_acos. rewrite (math_1_as_float _ z (-1)%float).
    - apply math_1_finite, Hacos.
    - destruct Hz as [-> | ->]; reflexivity. }
  rewrite E. cbn [bind].
  change (float_truediv (libm_acos m (-1)) D) with (Ok (libm_acos m (-1) / D)%float).
  cbn [bind]. destruct Hz as [-> | ->]; reflexivity.
Qed.

Lemma inverse_transform_south_pole_witness :
  sphere2cartesian toy_libm [Float 0; Float 0; Int (-1)] = Raise ZeroDivisionError.
Proof.
  apply (inverse_transform_south_pole toy_libm (Float 0) (Float 0) (Int (-1))).
  - left. reflexivity.
  - reflexivity.
Defined.

Lemma arith_float_r (fz : Z -> Z -> Z) (ff : float -> float -> float)
    (a : num) (v : float) (c : num) :
  arith fz ff a (Float v) = Ok c -> exists w, c = Float w.
Proof.
  unfold arith. destruct a as [n|u]; cbn [as_float bind].
  - destruct (float_of_int n); cbn [bind]; [intros [= <-]; eauto | discriminate].
  - intros [= <-]. eauto.
Qed.

Lemma arith_float_l (fz : Z -> Z -> Z) (ff : float -> float -> float)
    (v : float) (b : num) (c : num) :
  arith fz ff (Float v) b = Ok c -> exists w, c = Float w.
Proof.
  unfold arith. cbn [as_float bind].
  destruct (as_float b); cbn [bind]; [intros [= <-]; eauto | discriminate].
Qed.

Lemma cartesian2sphere_shape (m : libm) (pt q : list num) :
  cartesian2sphere m pt = Ok q -> exists x y z, q = [Float x; Float y; Float z].
Proof.
  rewrite cartesian2sphere_polar.
  destruct (polar pt) as [[[ux uy] theta]|]; cbn [bind]; [|discriminate].
  destruct (math_sin m _); cbn [bind]; [|discriminate].
  destruct (math_cos m _); cbn [bind]; [|discriminate].
  intros [= <-]. eauto.
Qed.

Lemma sphere2cartesian_shape (m : libm) (pt q : list num) :
  sphere2cartesian m pt = Ok q -> exists x y, q = [Float x; Float y].
Proof.
  unfold sphere2cartesian.
  destruct (getitem pt 2); cbn [bind]; [|discriminate].
  destruct (math_acos m _); cbn [bind]; [|discriminate].
  destruct (float_truediv _ D); cbn [bind]; [|discriminate].
  destruct (if num_ne _ _ then _ else _) as [r|]; cbn [bind]; [|discriminate].
  destruct (getitem pt 0) as [p0|]; cbn [bind]; [|discriminate].
  destruct (num_mul (Float r) p0) as [rx|] eqn:Erx; cbn [bind]; [|discriminate].
  destruct (num_mul rx (Float f)) as [rxf|] eqn:Erxf; cbn [bind]; [|discriminate].
  change (getitem center 0) with (Ok (Int 960)).
  change (getitem center 1) with (Ok (Int 540)). cbn [bind].
  apply arith_float_r in Erxf as [wx ->].
  destruct (num_add (Float wx) (Int 960)) as [px|] eqn:Epx; cbn [bind]; [|discriminate].
  apply arith_float_l in Epx as [px' ->].
  destruct (getitem pt 1) as [p1|]; cbn [bind]; [|discriminate].
  destruct (num_mul (Float r) p1) as [ry|] eqn:Ery; cbn [bind]; [|discriminate].
  destruct (num_mul ry (Float f)) as [ryf|] eqn:Eryf; cbn [bind]; [|discriminate].
  apply arith_float_r in Eryf as [wy ->].
  destruct (num_add (Float wy) (Int 540)) as [py|] eqn:Epy; cbn [bind]; [|discriminate].
  apply arith_float_l in Epy as [py' ->].
  intros [= <-]. eauto.
Qed.

(** X4: What [convert_point] returns is a point of the other kind: three
    doubles from a 2D point, two doubles from a 3D point; converting the
    result again therefore runs the opposite transform. *)
Theorem convert_point_alternates (m : libm) (p q : list num) :
  convert_point m p = Ok q ->
  (List.length p = 2%nat /\
   (exists x y z, q = [Float x; Float y; Float z]) /\
   convert_point m q = sphere2cartesian m q) \/
  (List.length p = 3%nat /\
   (exists x y, q = [Float x; Float y]) /\
   convert_point m q = cartesian2sphere m q).
Proof.
  unfold convert_point at 1.
  pose proof (len_eqb p 2) as E2. pose proof (len_eqb p 3) as E3.
  change (Z.of_nat 2) with 2 in E2. change (Z.of_nat 3) with 3 in E3.
  rewrite E2, E3.
  destruct (Nat.eqb_spec (List.length p) 2) as [H2|_].
  - intros H. left. split; [exact H2|].
    destruct (cartesian2sphere_shape _ _ _ H) as (x & y & z & ->).
    split; [eauto | reflexivity].
  - destruct (Nat.eqb_spec (List.length p) 3) as [H3|_]; [|discriminate].
    intros H. right. split; [exact H3|].
    destruct (sphere2cartesian_shape _ _ _ H) as (x & y & ->).
    split; [eauto | reflexivity].
Qed.

Lemma convert_point_alternates_witness :
  exists q, convert_point toy_libm [Int 960; Int 540] = Ok q /\
            convert_point toy_libm q = sphere2cartesian toy_libm q.
Proof.
  exists [Float 0; Float 0; Float 1]. split; [reflexivity|].
  destruct (convert_point_alternates toy_libm [Int 960; Int 540]
              [Float 0; Float 0; Float 1] eq_refl) as [(_ & _ & H)|(H & _)].
  - exact H.
  - discriminate H.
Defined.



(** ** Boxes the constructor accepted *)

Lemma init_inv (pts : list point) (fmt : string) (b : CartesianBbox.t) :
  CartesianBbox.__init__ pts fmt = Ok b ->
  b = {| CartesianBbox.points := pts; CartesianBbox.fmt := fmt |} /\
  In fmt ["xyxy"; "xywh"; "cxcywh"] /\
  exists p0 p1 rest, pts = p0 :: p1 :: rest /\ Nat.Even (List.length pts).
Proof.
  unfold CartesianBbox.__init__, len. fold (recognized_fmt fmt).
  destruct (recognized_fmt fmt) eqn:Ef; cbn [negb]; [|discriminate].
  destruct (negb (2 <=? Z.of_nat (List.length pts))) eqn:E1; [discriminate|].
  destruct (negb (Z.of_nat (List.length pts) mod 2 =? 0)) eqn:E2; [discriminate|].
  intros [= <-]. split; [reflexivity|]. split; [apply recognized_fmt_In, Ef|].
  apply not_true_iff_false in E1, E2. rewrite too_few_iff in E1.
  rewrite odd_count_iff in E2.
  destruct pts as [|p0 [|p1 rest]]; cbn [List.length] in E1; try lia.
  exists p0, p1, rest. split; [reflexivity|].
  destruct (Nat.Even_or_Odd (List.length (p0 :: p1 :: rest))); [assumption|contradiction].
Qed.

(** X5: Construction succeeds exactly when the format tag is one of the three
    and the points are an even number, at least two; the object made holds
    the arguments as given.  The [SphericalBbox] constructor has the same
    two conditions on the count. *)
Theorem construction_succeeds_iff (pts : list point) (fmt : string) :
  ((exists b, CartesianBbox.__init__ pts fmt = Ok b) <->
   In fmt ["xyxy"; "xywh"; "cxcywh"] /\
   (2 <= List.length pts)%nat /\ Nat.Even (List.length pts)) /\
  (forall b, CartesianBbox.__init__ pts fmt = Ok b ->
     CartesianBbox.points b = pts /\ CartesianBbox.fmt b = fmt) /\
  ((exists s, SphericalBbox.__init__ pts = Ok s) <->
   (2 <= List.length pts)%nat /\ Nat.Even (List.length pts)) /\
  (forall s, SphericalBbox.__init__ pts = Ok s -> SphericalBbox.points s = pts).
Proof.
  repeat apply conj.
  - intros [b H]. destruct (init_inv _ _ _ H) as (_ & Hfmt & p0 & p1 & rest & -> & Hev).
    repeat split; [exact Hfmt | cbn [List.length]; lia | exact Hev].
  - intros (Hfmt & Hge & Hev). apply recognized_fmt_In in Hfmt.
    exists {| CartesianBbox.points := pts; CartesianBbox.fmt := fmt |}.
    unfold CartesianBbox.__init__, len. fold (recognized_fmt fmt). rewrite Hfmt.
    apply count_checks; assumption.
  - intros b H. destruct (init_inv _ _ _ H) as (-> & _). split; reflexivity.
  - intros [s H]. revert H. unfold SphericalBbox.__init__, len.
    destruct (negb (2 <=? Z.of_nat (List.length pts))) eqn:E1; [discriminate|].
    destruct (negb (Z.of_nat (List.length pts) mod 2 =? 0)) eqn:E2; [discriminate|].
    intros _. apply not_true_iff_false in E1, E2.
    rewrite too_few_iff in E1. rewrite odd_count_iff in E2.
    split; [lia|].
    destruct (Nat.Even_or_Odd (List.length pts)); [assumption|contradiction].
  - intros (Hge & Hev). exists {| SphericalBbox.points := pts |}.
    unfold SphericalBbox.__init__, len. apply count_checks; assumption.
  - unfold SphericalBbox.__init__.
    destruct (negb _); [discriminate|]. destruct (negb _); [discriminate|].
    intros s [= <-]. reflexivity.
Qed.

(** X6: A box the constructor accepted is normalized from its first two points
    alone: an xyxy box comes back as it is, an xywh or cxcywh box as the
    conversion of its first pair, whatever follows that pair. *)
Theorem normalization_reads_first_pair (pts : list point) (fmt : string)
    (b : CartesianBbox.t) :
  CartesianBbox.__init__ pts fmt = Ok b ->
  (fmt = "xyxy" -> CartesianBbox.get_points_as_xyxy b = Ok pts) /\
  (fmt = "xywh" ->
     CartesianBbox.get_points_as_xyxy b
     = CartesianBbox._from_xywh_to_xyxy (firstn 2 pts)) /\
  (fmt = "cxcywh" ->
     CartesianBbox.get_points_as_xyxy b
     = CartesianBbox._from_cxcywh_to_xyxy (firstn 2 pts)).
Proof.
  intros H. destruct (init_inv _ _ _ H) as (-> & Hfmt & p0 & p1 & rest & -> & _).
  cbn [firstn].
  repeat apply conj.
  - intros ->. reflexivity.
  - intros ->. apply get_points_as_xyxy_first_pair.
  - intros ->. apply get_points_as_xyxy_first_pair.
Qed.

Lemma normalization_reads_first_pair_witness :
  CartesianBbox.get_points_as_xyxy
    {| CartesianBbox.points := main_points; CartesianBbox.fmt := "xywh" |}
  = CartesianBbox._from_xywh_to_xyxy [Point2D (Int 3) (Int 5); Point2D (Int 7) (Int 10)].
Proof.
  apply (proj1 (proj2 (normalization_reads_first_pair main_points "xywh" _ eq_refl))).
  reflexivity.
Defined.

(** X7: On a box of int points normalization cannot fail, and gives int points
    again: the points themselves for xyxy, two corner points for xywh and
    cxcywh. *)
Theorem normalization_total_on_int_boxes (pts : list point) (fmt : string)
    (b : CartesianBbox.t) :
  CartesianBbox.__init__ pts fmt = Ok b ->
  Forall int_point pts ->
  exists out,
    CartesianBbox.get_points_as_xyxy b = Ok out /\
    Forall int_point out /\
    List.length out = (if String.eqb fmt "xyxy" then List.length pts else 2%nat).
Proof.
  intros H Hall. destruct (init_inv _ _ _ H) as (-> & Hfmt & p0 & p1 & rest & -> & _).
  inversion Hall as [|? ? (x0 & y0 & ->) Hall1]; subst.
  inversion Hall1 as [|? ? (x1 & y1 & ->) _]; subst.
  destruct Hfmt as [<-|[<-|[<-|[]]]].
  - exists (Point2D (Int x0) (Int y0) :: Point2D (Int x1) (Int y1) :: rest).
    repeat split; [exact Hall].
  - rewrite (proj1 (get_points_as_xyxy_first_pair _ _ rest)).
    exists [Point2D (Int x0) (Int y0); Point2D (Int (x0 + x1)) (Int (y0 + y1))].
    repeat split. repeat constructor; unfold int_point; eauto.
  - rewrite (proj2 (get_points_as_xyxy_first_pair _ _ rest)).
    exists [Point2D (Int (x0 - x1 / 2)) (Int (y0 - y1 / 2));
            Point2D (Int (x0 - x1 / 2 + x1)) (Int (y0 - y1 / 2 + y1))].
    repeat split. repeat constructor; unfold int_point; eauto.
Qed.

Lemma normalization_total_on_int_boxes_witness :
  exists out,
    CartesianBbox.get_points_as_xyxy
      {| CartesianBbox.points := main_points; CartesianBbox.fmt := "cxcywh" |} = Ok out /\
    Forall int_point out /\ List.length out = 2%nat.
Proof.
  apply (normalization_total_on_int_boxes main_points "cxcywh" _ eq_refl).
  repeat constructor; unfold int_point; eauto.
Defined.

(** X8: A point of the first pair that does not have exactly two coordinates (a
    3D point, say) makes the xywh and cxcywh conversions raise the
    unpacking [ValueError]. *)
Theorem pair_conversion_arity (p q : point) :
  List.length p <> 2%nat \/ List.length q <> 2%nat ->
  exists msg,
    CartesianBbox._from_xywh_to_xyxy [p; q] = Raise (ValueError msg) /\
    CartesianBbox._from_cxcywh_to_xyxy [p; q] = Raise (ValueError msg).
Proof.
  intros H. unfold CartesianBbox._from_xywh_to_xyxy, CartesianBbox._from_cxcywh_to_xyxy.
  change (getitem [p; q] 0) with (Ok p). change (getitem [p; q] 1) with (Ok q).
  cbn [bind].
  destruct p as [|a [|b [|c p]]]; cbn [unpack2 bind]; eauto.
  destruct q as [|a' [|b' [|c' q]]]; cbn [unpack2 bind]; eauto.
  cbn [List.length] in H. lia.
Qed.

Lemma pair_conversion_arity_witness :
  exists msg,
    CartesianBbox._from_xywh_to_xyxy
      [Point3D (Int 1) (Int 2) (Int 3); Point2D (Int 4) (Int 5)] = Raise (ValueError msg) /\
    CartesianBbox._from_cxcywh_to_xyxy
      [Point3D (Int 1) (Int 2) (Int 3); Point2D (Int 4) (Int 5)] = Raise (ValueError msg).
Proof.
  apply (pair_conversion_arity (Point3D (Int 1) (Int 2) (Int 3)) (Point2D (Int 4) (Int 5))).
  left. cbn. lia.
Defined.

(** ** [bbox_to_spherical] point by point *)

Lemma for_in_append {A B : Type} (f : A -> result B) (xs : list A) : forall acc,
  for_in xs (fun x acc => y <- f x ;; Ok (acc ++ [y])%list) acc
  = (ys <- traverse f xs ;; Ok (acc ++ ys)%list).
Proof.
  induction xs as [|x xs IH]; intros acc; cbn [for_in traverse bind].
  - now rewrite app_nil_r.
  - destruct (f x) as [y|e]; cbn [bind]; [|reflexivity].
    rewrite IH. destruct (traverse f xs) as [ys|e]; cbn [bind]; [|reflexivity].
    now rewrite <- app_assoc.
Qed.

Lemma traverse_Forall2 {A B : Type} (f : A -> result B) (xs : list A) : forall ys,
  traverse f xs = Ok ys <-> Forall2 (fun x y => f x = Ok y) xs ys.
Proof.
  induction xs as [|x xs IH]; intros ys; cbn [traverse bind].
  - split; [intros [= <-]; constructor | intros H; inversion H; reflexivity].
  - split.
    + destruct (f x) as [y|e] eqn:E; cbn [bind]; [|discriminate].
      destruct (traverse f xs) as [ys'|e]; cbn [bind]; [|discriminate].
      intros [= <-]. constructor; [exact E | now apply IH].
    + intros H. inversion H as [|? y ? ys' Hxy Hrest]; subst.
      rewrite Hxy. cbn [bind]. apply IH in Hrest. rewrite Hrest. reflexivity.
Qed.

Lemma conversion_two_points (ps out : list point) :
  CartesianBbox._from_xywh_to_xyxy ps = Ok out \/
  CartesianBbox._from_cxcywh_to_xyxy ps = Ok out ->
  exists x1 y1 x2 y2, out = [Point2D x1 y1; Point2D x2 y2].
Proof.
  unfold CartesianBbox._from_xywh_to_xyxy, CartesianBbox._from_cxcywh_to_xyxy.
  destruct (getitem ps 0) as [p0|]; cbn [bind]; [|intros [|]; discriminate].
  destruct (unpack2 p0) as [[a b]|]; cbn [bind]; [|intros [|]; discriminate].
  destruct (getitem ps 1) as [p1|]; cbn [bind]; [|intros [|]; discriminate].
  destruct (unpack2 p1) as [[w h]|]; cbn [bind]; [|intros [|]; discriminate].
  intros [H|H].
  - destruct (num_add a w); cbn [bind] in H; [|discriminate].
    destruct (num_add b h); cbn [bind] in H; [|discriminate].
    injection H as <-. eauto.
  - destruct (num_floordiv w (Int 2)); cbn [bind] in H; [|discriminate].
    destruct (num_sub a _); cbn [bind] in H; [|discriminate].
    destruct (num_floordiv h (Int 2)); cbn [bind] in H; [|discriminate].
    destruct (num_sub b _); cbn [bind] in H; [|discriminate].
    destruct (num_add _ w); cbn [bind] in H; [|discriminate].
    destruct (num_add _ h); cbn [bind] in H; [|discriminate].
    injection H as <-. eauto.
Qed.

(** The normalized points of an accepted box: an even number, at least two. *)
Lemma normalized_count (pts : list point) (fmt : string) (b : CartesianBbox.t)
    (out : list point) :
  CartesianBbox.__init__ pts fmt = Ok b ->
  CartesianBbox.get_points_as_xyxy b = Ok out ->
  (2 <= List.length out)%nat /\ Nat.Even (List.length out) /\
  (fmt = "xyxy" -> out = pts) /\
  (fmt <> "xyxy" -> exists x1 y1 x2 y2, out = [Point2D x1 y1; Point2D x2 y2]).
Proof.
  intros H. destruct (init_inv _ _ _ H) as (-> & Hfmt & p0 & p1 & rest & E & Hev).
  rewrite E in *. clear E.
  destruct Hfmt as [<-|[<-|[<-|[]]]].
  - intros [= <-]. cbn [List.length] in *. repeat split; [lia | exact Hev | congruence].
  - rewrite (proj1 (get_points_as_xyxy_first_pair _ _ rest)). intros Ho.
    destruct (conversion_two_points _ _ (or_introl Ho)) as (x1 & y1 & x2 & y2 & ->).
    cbn [List.length]. repeat split; [lia | exists 1%nat; reflexivity | discriminate | eauto].
  - rewrite (proj2 (get_points_as_xyxy_first_pair _ _ rest)). intros Ho.
    destruct (conversion_two_points _ _ (or_intror Ho)) as (x1 & y1 & x2 & y2 & ->).
    cbn [List.length]. repeat split; [lia | exists 1%nat; reflexivity | discriminate | eauto].
Qed.

Lemma traverse_length {A B : Type} (f : A -> result B) (xs : list A) (ys : list B) :
  traverse f xs = Ok ys -> List.length ys = List.length xs.
Proof.
  intros H. apply traverse_Forall2 in H. symmetry. eapply Forall2_length, H.
Qed.

(** X9: On a box the constructor accepted, [bbox_to_spherical] is normalization
    followed by [convert_point] on each normalized point in turn: the first
    exception of either is the one raised, and the assertions of the
    [SphericalBbox] constructor never fail.  The box returned holds, for an
    xyxy box, the conversion of each point of the input in order; for an
    xywh or cxcywh box, two 3D points of doubles. *)
Theorem bbox_to_spherical_pointwise (m : libm) (pts : list point) (fmt : string)
    (b : CartesianBbox.t) :
  CartesianBbox.__init__ pts fmt = Ok b ->
  bbox_to_spherical m b
  = (ps <- CartesianBbox.get_points_as_xyxy b ;;
     sph <- traverse (convert_point m) ps ;;
     Ok {| SphericalBbox.points := sph |}) /\
  forall s, bbox_to_spherical m b = Ok s ->
    SphericalBbox.__init__ (SphericalBbox.points s) = Ok s /\
    (fmt = "xyxy" ->
       Forall2 (fun p q => convert_point m p = Ok q) pts (SphericalBbox.points s)) /\
    (fmt <> "xyxy" ->
       exists x1 y1 z1 x2 y2 z2,
         SphericalBbox.points s
         = [[Float x1; Float y1; Float z1]; [Float x2; Float y2; Float z2]]).
Proof.
  intros H.
  assert (Heq : bbox_to_spherical m b
    = (ps <- CartesianBbox.get_points_as_xyxy b ;;
       sph <- traverse (convert_point m) ps ;;
       Ok {| SphericalBbox.points := sph |})).
  { unfold bbox_to_spherical.
    destruct (CartesianBbox.get_points_as_xyxy b) as [ps|e] eqn:Eps; cbn [bind]; [|reflexivity].
    rewrite for_in_append. unfold point in *.
    destruct (traverse (convert_point m) ps) as [sph|e] eqn:Esph; cbn [bind app]; [|reflexivity].
    destruct (normalized_count _ _ _ _ H Eps) as (Hge & Hev & _).
    apply traverse_length in Esph. unfold point in *. rewrite <- Esph in Hge, Hev.
    unfold SphericalBbox.__init__, len. apply count_checks; assumption. }
  split; [exact Heq|].
  intros s Hs. rewrite Heq in Hs.
  destruct (CartesianBbox.get_points_as_xyxy b) as [ps|e] eqn:Eps; cbn [bind] in Hs;
    [|discriminate].
  unfold point in *.
  destruct (traverse (convert_point m) ps) as [sph|e] eqn:Esph; cbn [bind] in Hs;
    [|discriminate].
  injection Hs as <-. cbn [SphericalBbox.points].
  destruct (normalized_count _ _ _ _ H Eps) as (Hge & Hev & Hxyxy & Hother).
  pose proof (traverse_length _ _ _ Esph) as Hlen.
  apply traverse_Forall2 in Esph.
  unfold point in *.
  repeat apply conj.
  - rewrite <- Hlen in Hge, Hev.
    unfold SphericalBbox.__init__, len. apply count_checks; assumption.
  - intros Hf. rewrite <- (Hxyxy Hf). exact Esph.
  - intros Hf. destruct (Hother Hf) as (x1 & y1 & x2 & y2 & ->).
    inversion Esph as [|? q1 ? l1 Hq1 Hrest]; subst.
    inversion Hrest as [|? q2 ? l2 Hq2 Hnil]; subst.
    inversion Hnil; subst.
    apply cartesian2sphere_shape in Hq1 as (a1 & b1 & c1 & ->).
    apply cartesian2sphere_shape in Hq2 as (a2 & b2 & c2 & ->).
    exists a1, b1, c1, a2, b2, c2. reflexivity.
Qed.

Lemma bbox_to_spherical_pointwise_witness :
  bbox_to_spherical toy_libm
    {| CartesianBbox.points := main_points; CartesianBbox.fmt := "cxcywh" |}
  = (ps <- CartesianBbox.get_points_as_xyxy
             {| CartesianBbox.points := main_points; CartesianBbox.fmt := "cxcywh" |} ;;
     sph <- traverse (convert_point toy_libm) ps ;;
     Ok {| SphericalBbox.points := sph |}).
Proof.
  apply (bbox_to_spherical_pointwise toy_libm main_points "cxcywh" _ eq_refl).
Defined.

(** ** No call changes an object that existed before it *)

Module HeapFacts.
Import Heap HeapLogic.

Lemma triple_weaken {A : Type} (n : nat) (c : M A) (Q Q' : A -> Prop) :
  triple n c Q -> (forall a, Q a -> Q' a) -> triple n c Q'.
Proof.
  intros Hc HQ h Hn. destruct (Hc h Hn) as (Hlen & Hfr & Hq).
  repeat split; auto.
Qed.

Lemma triple_ret {A : Type} (n : nat) (a : A) (Q : A -> Prop) :
  Q a -> triple n (ret a) Q.
Proof.
  intros HQ h Hn. cbn. repeat split; auto. intros a' [= <-]. exact HQ.
Qed.

Lemma triple_lift {A : Type} (n : nat) (r : result A) : triple n (lift r) any.
Proof. intros h Hn. cbn. repeat split; auto. Qed.

Lemma triple_bind {A B : Type} (n : nat) (c : M A) (k : A -> M B)
    (Q : A -> Prop) (R : B -> Prop) :
  triple n c Q -> (forall a, Q a -> triple n (k a) R) ->
  triple n (mbind c k) R.
Proof.
  intros Hc Hk h Hn. destruct (Hc h Hn) as (Hlen & Hfr & Hq).
  unfold mbind. destruct (c h) as [[a|e] h1]; cbn in *.
  - destruct (Hk a (Hq a eq_refl) h1 ltac:(lia)) as (Hlen' & Hfr' & Hq').
    repeat split.
    + lia.
    + intros l Hl. rewrite Hfr' by exact Hl. apply Hfr, Hl.
    + exact Hq'.
  - repeat split; auto. discriminate.
Qed.

Lemma triple_load (n : nat) (v : val) : triple n (load v) any.
Proof.
  intros h Hn. unfold load.
  destruct v as [a|l]; [|destruct (nth_error h l)]; cbn; repeat split; auto.
Qed.

Lemma triple_alloc (n : nat) (o : obj) : triple n (alloc o) (fresh n).
Proof.
  intros h Hn. unfold alloc. cbn. repeat split.
  - rewrite length_app. lia.
  - intros l Hl. apply nth_error_app1. lia.
  - intros a [= <-]. exists (List.length h). auto.
Qed.

Lemma update_length (h : heap) (l : loc) (o : obj) :
  List.length (update h l o) = List.length h.
Proof.
  revert l. induction h as [|o' h IH]; intros [|l]; cbn; auto.
Qed.

Lemma update_other (h : heap) (l l' : loc) (o : obj) :
  l' <> l -> nth_error (update h l o) l' = nth_error h l'.
Proof.
  revert l l'. induction h as [|o' h IH]; intros [|l] [|l'] Hne; cbn; auto;
    congruence.
Qed.

Lemma update_same (h : heap) (l : nat) (o : obj) :
  (l < List.length h)%nat -> nth_error (update h l o) l = Some o.
Proof.
  revert l. induction h as [|o' h IH]; intros [|l] Hl; cbn in *; try lia.
  - reflexivity.
  - apply IH. lia.
Qed.

Lemma triple_store (n : nat) (l : loc) (o : obj) :
  (n <= l)%nat -> triple n (store l o) any.
Proof.
  intros Hl h Hn. unfold store. cbn. repeat split.
  - rewrite update_length. lia.
  - intros l' Hl'. apply update_other. lia.
Qed.

Lemma triple_for_in {A S : Type} (n : nat) (xs : list A) (body : A -> S -> M S)
    (I : S -> Prop) :
  (forall x s, I s -> triple n (body x s) I) ->
  forall s, I s -> triple n (for_in xs body s) I.
Proof.
  intros Hbody. induction xs as [|x xs IH]; intros s Hs; cbn [for_in].
  - apply triple_ret, Hs.
  - eapply triple_bind; [apply Hbody, Hs | exact IH].
Qed.

(** Binding a computation whose value is not constrained. *)
Lemma triple_bind_any {A B : Type} (n : nat) (c : M A) (k : A -> M B)
    (R : B -> Prop) :
  triple n c any -> (forall a, triple n (k a) R) -> triple n (mbind c k) R.
Proof. intros Hc Hk. eapply triple_bind; [exact Hc | auto]. Qed.

Lemma triple_any {A : Type} (n : nat) (c : M A) (Q : A -> Prop) :
  triple n c Q -> triple n c any.
Proof. intros H. eapply triple_weaken; [exact H | exact (fun _ _ => I)]. Qed.

Ltac triple_step :=
  match goal with
  | |- triple _ (mbind _ _) _ => apply triple_bind_any; [|intros]
  | |- triple _ (ret _) any => apply triple_ret; exact I
  | |- triple _ (lift _) any => apply triple_lift
  | |- triple _ (load _) any => apply triple_load
  | |- triple _ (alloc _) any => apply (triple_any _ _ _ (triple_alloc _ _))
  | |- triple _ (alloc _) (fresh _) => apply triple_alloc
  | |- triple _ (match ?x with _ => _ end) _ => destruct x
  | |- triple _ (if ?b then _ else _) _ => destruct b
  end.

Lemma triple_list_items (n : nat) (v : val) : triple n (list_items v) any.
Proof. unfold list_items. repeat triple_step. Qed.

Lemma triple_seq_items (n : nat) (v : val) : triple n (seq_items v) any.
Proof.
  unfold seq_items. repeat triple_step; apply triple_list_items.
Qed.

Lemma triple_as_nums (n : nat) (vs : list val) : triple n (as_nums vs) any.
Proof.
  induction vs as [|v vs IH]; cbn [as_nums].
  - apply triple_ret. exact I.
  - apply triple_bind_any; [unfold as_num; repeat triple_step | intros a].
    apply triple_bind_any; [exact IH | intros l].
    apply triple_ret. exact I.
Qed.

Lemma triple_binop (n : nat) op (v w : val) : triple n (binop op v w) any.
Proof. unfold binop, as_num. repeat triple_step. Qed.

Lemma triple_attr_points (n : nat) (v : val) : triple n (attr_points v) any.
Proof. unfold attr_points. repeat triple_step. Qed.

Lemma triple_attr_fmt (n : nat) (v : val) : triple n (attr_fmt v) any.
Proof. unfold attr_fmt. repeat triple_step. Qed.

Lemma triple_Point2D (n : nat) (x y : val) : triple n (Point2D x y) any.
Proof. unfold Point2D. repeat triple_step. Qed.

Ltac triple_auto :=
  repeat first
    [ apply triple_seq_items | apply triple_list_items | apply triple_as_nums
    | apply triple_binop | apply triple_attr_points | apply triple_attr_fmt
    | apply triple_Point2D | triple_step ].

Lemma triple_from_xywh (n : nat) (points : val) :
  triple n (_from_xywh_to_xyxy points) any.
Proof. unfold _from_xywh_to_xyxy. triple_auto. Qed.

Lemma triple_from_cxcywh (n : nat) (points : val) :
  triple n (_from_cxcywh_to_xyxy points) any.
Proof. unfold _from_cxcywh_to_xyxy. triple_auto. Qed.

Lemma triple_convert_pairs (n : nat) (self : val) (conv : val -> M val) :
  (forall v, triple n (conv v) any) ->
  triple n (convert_pairs self conv) (fresh n).
Proof.
  intros Hconv. unfold convert_pairs.
  eapply triple_bind; [apply triple_alloc | intros points Hpoints].
  apply triple_bind_any; [apply triple_attr_points | intros sp].
  apply triple_bind_any; [apply triple_seq_items | intros items].
  apply triple_bind_any; [apply triple_lift | intros idxs].
  apply triple_for_in; [|exact Hpoints].
  intros idx acc _.
  repeat (apply triple_bind_any;
          [first [apply triple_attr_points | apply triple_seq_items
                 | apply triple_lift | apply Hconv
                 | apply (triple_any _ _ _ (triple_alloc _ _))]
          | intros ?]).
  apply triple_alloc.
Qed.

Lemma triple_get_points_as_xyxy (n : nat) (self : val) :
  triple n (get_points_as_xyxy self) any.
Proof.
  unfold get_points_as_xyxy.
  apply triple_bind_any; [apply triple_attr_points | intros points].
  apply triple_bind_any; [apply triple_attr_fmt | intros fmt].
  apply triple_bind_any.
  { destruct (String.eqb fmt "xywh"); [|apply triple_ret; exact I].
    eapply triple_any, triple_convert_pairs. apply triple_from_xywh. }
  intros points1.
  apply triple_bind_any; [apply triple_attr_fmt | intros fmt1].
  apply triple_bind_any.
  { destruct (String.eqb fmt1 "cxcywh"); [|apply triple_ret; exact I].
    eapply triple_any, triple_convert_pairs. apply triple_from_cxcywh. }
  intros points2. apply triple_ret. exact I.
Qed.

Lemma triple_item (n : nat) (s : val) (i : Z) : triple n (item s i) any.
Proof. unfold item. triple_auto. Qed.

Lemma triple_as_num (n : nat) (v : val) : triple n (as_num v) any.
Proof. unfold as_num. repeat triple_step. Qed.

(** A point conversion changes nothing and returns a new list. *)
Lemma triple_convert_point_fresh (n : nat) (m : libm) (point : val) :
  triple n (Heap.convert_point m point) (fresh n).
Proof.
  unfold Heap.convert_point, Heap.cartesian2sphere, Heap.sphere2cartesian.
  repeat first
    [ apply triple_alloc
    | apply triple_bind_any;
      [first [apply triple_seq_items | apply triple_item | apply triple_as_num
             | apply triple_lift] | intros ?]
    | match goal with
      | |- triple _ (if ?b then _ else _) _ => destruct b
      end ].
  intros h Hn. cbn. repeat split; auto. discriminate.
Qed.

Lemma triple_convert_point (n : nat) (m : libm) (point : val) :
  triple n (Heap.convert_point m point) any.
Proof. eapply triple_any, triple_convert_point_fresh. Qed.

Lemma triple_SphericalBbox (n : nat) (points : val) :
  triple n (SphericalBbox points) any.
Proof. unfold SphericalBbox. triple_auto. Qed.

(** [append] is applied to the list that the call itself created. *)
Lemma triple_list_append (n : nat) (l v : val) :
  fresh n l -> triple n (list_append l v) any.
Proof.
  intros (a & -> & Ha). unfold list_append.
  apply triple_bind_any; [apply triple_load | intros o].
  destruct o; first [apply triple_store, Ha | apply triple_lift].
Qed.

Lemma triple_bbox_to_spherical (n : nat) (m : libm) (cartesian : val) :
  triple n (Heap.bbox_to_spherical m cartesian) any.
Proof.
  unfold Heap.bbox_to_spherical.
  eapply triple_bind; [apply triple_alloc | intros sp Hsp].
  apply triple_bind_any; [apply triple_get_points_as_xyxy | intros cps].
  apply triple_bind_any; [apply triple_seq_items | intros items].
  apply triple_bind_any; [|intros _; apply triple_SphericalBbox].
  apply triple_for_in; [|exact I].
  intros cp [] _.
  apply triple_bind_any; [apply triple_convert_point | intros s].
  apply triple_list_append, Hsp.
Qed.

Lemma attr_points_eq (h : heap) (b : loc) (pts : val) (fmt : string) :
  nth_error h b = Some (OCartesianBbox pts fmt) ->
  attr_points (VRef b) h = (Ok pts, h) /\ attr_fmt (VRef b) h = (Ok fmt, h).
Proof.
  intros H. unfold attr_points, attr_fmt, mbind, load. rewrite H. split; reflexivity.
Qed.

(** On an xyxy box [get_points_as_xyxy] returns the value of [self.points]
    itself and allocates nothing. *)
Lemma get_points_as_xyxy_alias (h : heap) (b : loc) (pts : val) :
  nth_error h b = Some (OCartesianBbox pts "xyxy") ->
  get_points_as_xyxy (VRef b) h = (Ok pts, h).
Proof.
  intros H. destruct (attr_points_eq h b pts _ H) as [Hp Hf].
  unfold get_points_as_xyxy, mbind. rewrite Hp, Hf. cbn. rewrite Hf. reflexivity.
Qed.

(** On an xywh or cxcywh box the list returned is a new object. *)
Lemma get_points_as_xyxy_fresh (h : heap) (b : loc) (pts : val) (fmt : string) :
  nth_error h b = Some (OCartesianBbox pts fmt) ->
  fmt = "xywh" \/ fmt = "cxcywh" ->
  forall v, fst (get_points_as_xyxy (VRef b) h) = Ok v -> fresh (List.length h) v.
Proof.
  intros H Hfmt v. destruct (attr_points_eq h b pts _ H) as [Hp Hf].
  assert (Hb : (b < List.length h)%nat) by (apply nth_error_Some; congruence).
  unfold get_points_as_xyxy, mbind. rewrite Hp, Hf.
  destruct Hfmt as [-> | ->]; cbn [String.eqb Ascii.eqb Bool.eqb].
  - pose proof (triple_convert_pairs (List.length h) (VRef b) _
                  (triple_from_xywh _) h (le_n _)) as (Hlen & Hfr & Hq).
    destruct (convert_pairs (VRef b) _from_xywh_to_xyxy h) as [[v1|e] h1];
      cbn [fst snd] in *; [|discriminate].
    assert (H1 : nth_error h1 b = Some (OCartesianBbox pts "xywh"))
      by (rewrite Hfr; assumption).
    destruct (attr_points_eq h1 b pts _ H1) as [_ Hf1]. rewrite Hf1.
    cbn. intros [= <-]. apply Hq. reflexivity.
  - cbn [ret]. rewrite Hf. cbn [String.eqb Ascii.eqb Bool.eqb].
    pose proof (triple_convert_pairs (List.length h) (VRef b) _
                  (triple_from_cxcywh _) h (le_n _)) as (Hlen & Hfr & Hq).
    destruct (convert_pairs (VRef b) _from_cxcywh_to_xyxy h) as [[v1|e] h1];
      cbn [fst snd] in *; [|discriminate].
    intros [= <-]. apply Hq. reflexivity.
Qed.

End HeapFacts.

(** C9, as the code has it: [get_points_as_xyxy] and [bbox_to_spherical]
    leave every object of the store as it was before the call: the box, its
    format tag, its points list and the points in it.  The list returned by
    [get_points_as_xyxy] is a new object for an xywh or cxcywh box; for an
    xyxy box it is the box's own points list, and nothing is allocated. *)
Theorem calls_change_no_object (m : libm) (h : Heap.heap) (box : Heap.val) :
  (forall l o, nth_error h l = Some o ->
     nth_error (snd (Heap.get_points_as_xyxy box h)) l = Some o /\
     nth_error (snd (Heap.bbox_to_spherical m box h)) l = Some o) /\
  (forall b pts, box = Heap.VRef b ->
     nth_error h b = Some (Heap.OCartesianBbox pts "xyxy") ->
     Heap.get_points_as_xyxy box h = (Ok pts, h)) /\
  (forall b pts fmt, box = Heap.VRef b ->
     nth_error h b = Some (Heap.OCartesianBbox pts fmt) ->
     fmt = "xywh" \/ fmt = "cxcywh" ->
     forall v, fst (Heap.get_points_as_xyxy box h) = Ok v ->
     exists l, v = Heap.VRef l /\ (List.length h <= l)%nat).
Proof.
  repeat apply conj.
  - intros l o Hl.
    assert (Hlt : (l < List.length h)%nat) by (apply nth_error_Some; congruence).
    destruct (HeapFacts.triple_get_points_as_xyxy (List.length h) box h (le_n _))
      as (_ & H1 & _).
    destruct (HeapFacts.triple_bbox_to_spherical (List.length h) m box h (le_n _))
      as (_ & H2 & _).
    rewrite H1, H2 by exact Hlt. auto.
  - intros b pts ->. apply HeapFacts.get_points_as_xyxy_alias.
  - intros b pts fmt ->. apply HeapFacts.get_points_as_xyxy_fresh.
Qed.

Lemma calls_change_no_object_witness :
  nth_error (snd (Heap.get_points_as_xyxy (Heap.VRef 5%nat) xyxy_store)) 5%nat
    = Some (Heap.OCartesianBbox (Heap.VRef 4%nat) "xyxy") /\
  nth_error (snd (Heap.bbox_to_spherical toy_libm (Heap.VRef 5%nat) xyxy_store)) 5%nat
    = Some (Heap.OCartesianBbox (Heap.VRef 4%nat) "xyxy").
Proof.
  apply (proj1 (calls_change_no_object toy_libm xyxy_store (Heap.VRef 5%nat))).
  reflexivity.
Defined.

(** C9 as stated fails in its last part: on an xyxy box the result of
    [get_points_as_xyxy] is not a new list but the box's own points list
    (reference 4 of the store, held by the box at reference 5), so that
    appending to the result changes the points of the box. *)
Lemma get_points_as_xyxy_returns_own_list :
  Heap.get_points_as_xyxy (Heap.VRef 5%nat) xyxy_store = (Ok (Heap.VRef 4%nat), xyxy_store) /\
  Heap.attr_points (Heap.VRef 5%nat) xyxy_store = (Ok (Heap.VRef 4%nat), xyxy_store) /\
  fst (Heap.mbind (Heap.get_points_as_xyxy (Heap.VRef 5%nat)) (fun r =>
       Heap.mbind (Heap.list_append r (Heap.VRef 1%nat)) (fun _ =>
       Heap.mbind (Heap.attr_points (Heap.VRef 5%nat)) (fun points =>
       Heap.mbind (Heap.seq_items points) (fun items =>
       Heap.ret (len items))))) xyxy_store) = Ok 3.
Proof. repeat split. Qed.

(** ** The store model computes what the store-free model computes *)

Module HeapRefinement.
Import Heap(heap, val, VNum, VRef, obj, OList, OPoint2D, OPoint3D, OCartesianBbox,
            OSphericalBbox, M, ret, lift, mbind, alloc, load, seq_items, list_items,
            binop, as_num, as_nums, attr_points, attr_fmt).
Import HeapLogic.
Local Notation "x <~ c ;; k" := (mbind c (fun x => k))
  (at level 61, c at next level, right associativity).
Local Open Scope nat_scope.
Local Open Scope list_scope.

Lemma ext_refl h : ext h h.
Proof. exists []. now rewrite app_nil_r. Qed.

Lemma ext_trans h1 h2 h3 : ext h1 h2 -> ext h2 h3 -> ext h1 h3.
Proof. intros [e1 ->] [e2 ->]. exists (e1 ++ e2)%list. now rewrite app_assoc. Qed.

Lemma ext_app h e : ext h (h ++ e)%list.
Proof. now exists e. Qed.

Lemma ext_nth_error h h' l o :
  ext h h' -> nth_error h l = Some o -> nth_error h' l = Some o.
Proof.
  intros [e ->] H. rewrite nth_error_app1; [exact H|].
  apply nth_error_Some. congruence.
Qed.

Lemma seq_items_read h v : seq_items v h = (read h v, h).
Proof.
  unfold read, seq_items, list_items, mbind, load.
  destruct v as [a|l]; [reflexivity|].
  destruct (nth_error h l) as [[items|x y [a|p]|x y z [a|p]|pts fmt|pts]|];
    try reflexivity;
    destruct (nth_error h p) as [[]|]; reflexivity.
Qed.

Lemma read_ext h h' v vs : ext h h' -> read h v = Ok vs -> read h' v = Ok vs.
Proof.
  intros Hext. unfold read, seq_items, list_items, mbind, load.
  destruct v as [a|l]; [discriminate|].
  destruct (nth_error h l) as [o|] eqn:E; [|discriminate].
  rewrite (ext_nth_error _ _ _ _ Hext E).
  destruct o as [items|x y [a|p]|x y z [a|p]|pts fmt|pts]; try discriminate; auto;
    destruct (nth_error h p) as [o'|] eqn:E'; try discriminate;
    rewrite (ext_nth_error _ _ _ _ Hext E'); destruct o'; auto.
Qed.

Lemma is_point_ext h h' v p : ext h h' -> is_point h v p -> is_point h' v p.
Proof. intros Hext. apply read_ext, Hext. Qed.

Lemma is_points_ext h h' v ps : ext h h' -> is_points h v ps -> is_points h' v ps.
Proof.
  intros Hext (vs & Hr & Hall). exists vs. split.
  - eapply read_ext; eauto.
  - eapply Forall2_impl; [|exact Hall]. intros a b. apply is_point_ext, Hext.
Qed.

Lemma sim_ret {A B} (R : heap -> A -> B -> Prop) a b h :
  R h a b -> sim R (ret a) (Ok b) h.
Proof. intros H. split; [apply ext_refl | exact H]. Qed.

Lemma sim_raise {A B} (R : heap -> A -> B -> Prop) e h :
  sim R (lift (Raise e)) (Raise e) h.
Proof. split; [apply ext_refl | reflexivity]. Qed.

Lemma sim_bind {A A' B B'} (RA : heap -> A -> A' -> Prop) (RB : heap -> B -> B' -> Prop)
    (c : M A) (r : result A') (k : A -> M B) (k' : A' -> result B') h :
  sim RA c r h ->
  (forall a a' h', ext h h' -> RA h' a a' -> sim RB (k a) (k' a') h') ->
  sim RB (mbind c k) (bind r k') h.
Proof.
  intros [Hext Hc] Hk. unfold sim, mbind.
  destruct (c h) as [[a|e] h1], r as [a'|e']; cbn in *; try contradiction.
  - destruct (Hk a a' h1 Hext Hc) as [Hext' Hk'].
    split; [eapply ext_trans; eauto | exact Hk'].
  - split; assumption.
Qed.

(** A step of the store model alone, which returns [a] and leaves [h'],
    an extension of [h]. *)
Lemma sim_step {A B B'} (RB : heap -> B -> B' -> Prop)
    (c : M A) (a : A) (k : A -> M B) (r : result B') h h' :
  c h = (Ok a, h') -> ext h h' -> sim RB (k a) r h' -> sim RB (mbind c k) r h.
Proof.
  intros Hc Hext [Hext' Hk]. unfold sim, mbind. rewrite Hc.
  split; [eapply ext_trans; eauto | exact Hk].
Qed.

Lemma sim_step_raise {A B B'} (RB : heap -> B -> B' -> Prop)
    (c : M A) (e : exn) (k : A -> M B) h :
  c h = (Raise e, h) -> sim RB (mbind c k) (Raise e) h.
Proof.
  intros Hc. unfold sim, mbind. rewrite Hc. split; [apply ext_refl | reflexivity].
Qed.

Lemma sim_lift_ok {A B B'} (RB : heap -> B -> B' -> Prop)
    (a : A) (k : A -> M B) (r : result B') h :
  sim RB (k a) r h -> sim RB (mbind (lift (Ok a)) k) r h.
Proof. apply sim_step; [reflexivity | apply ext_refl]. Qed.

Lemma sim_seq_items {B B'} (RB : heap -> B -> B' -> Prop)
    (v : val) (vs : list val) (k : list val -> M B) (r : result B') h :
  read h v = Ok vs -> sim RB (k vs) r h -> sim RB (mbind (seq_items v) k) r h.
Proof.
  intros Hr. apply sim_step; [|apply ext_refl].
  rewrite seq_items_read, Hr. reflexivity.
Qed.

Lemma sim_alloc {B B'} (RB : heap -> B -> B' -> Prop)
    (o : obj) (k : val -> M B) (r : result B') h :
  sim RB (k (VRef (List.length h))) r (h ++ [o])%list ->
  sim RB (mbind (alloc o) k) r h.
Proof. apply sim_step; [reflexivity | apply ext_app]. Qed.

(** An arithmetic operation on two numbers of the store. *)
Lemma sim_binop {B B'} (RB : heap -> B -> B' -> Prop) op (a b : num)
    (k : val -> M B) (k' : num -> result B') h :
  (forall c, op a b = Ok c -> sim RB (k (VNum c)) (k' c) h) ->
  sim RB (mbind (binop op (VNum a) (VNum b)) k) (bind (op a b) k') h.
Proof.
  intros Hk. destruct (op a b) as [c|e] eqn:E.
  - eapply sim_step; [|apply ext_refl | apply Hk; reflexivity].
    unfold binop, mbind. cbn. rewrite E. reflexivity.
  - apply sim_step_raise. unfold binop, mbind. cbn. rewrite E. reflexivity.
Qed.

Lemma nth_error_past (h e : heap) (k : nat) :
  nth_error (h ++ e)%list (List.length h + k) = nth_error e k.
Proof.
  rewrite nth_error_app2 by lia. f_equal. lia.
Qed.

Lemma read_list (h e : heap) (k : nat) (items : list val) :
  nth_error e k = Some (OList items) ->
  read (h ++ e)%list (VRef (List.length h + k)) = Ok items.
Proof.
  intros H. unfold read, seq_items, mbind, load. rewrite nth_error_past, H.
  reflexivity.
Qed.

Lemma read_point2d (h e : heap) (k j : nat) (x y : val) (items : list val) :
  nth_error e k = Some (OPoint2D x y (VRef (List.length h + j))) ->
  nth_error e j = Some (OList items) ->
  read (h ++ e)%list (VRef (List.length h + k)) = Ok items.
Proof.
  intros H1 H2. unfold read, seq_items, list_items, mbind, load.
  rewrite nth_error_past, H1. cbn. rewrite nth_error_past, H2. reflexivity.
Qed.

(** The two corner points and the list that holds them. *)
Lemma sim_corner_pair (x1 y1 x2 y2 : num) h :
  sim is_points
    (a <~ Heap.Point2D (VNum x1) (VNum y1) ;;
     b <~ Heap.Point2D (VNum x2) (VNum y2) ;;
     alloc (OList [a; b]))
    (Ok [Point2D x1 y1; Point2D x2 y2]) h.
Proof.
  cbv beta iota delta [sim mbind Heap.Point2D alloc fst snd].
  rewrite !length_app. cbn [List.length].
  rewrite <- !app_assoc. cbn [app].
  split; [apply ext_app|].
  replace (List.length h + 1 + 1 + 1 + 1)%nat with (List.length h + 4)%nat by lia.
  replace (List.length h + 1 + 1 + 1)%nat with (List.length h + 3)%nat by lia.
  replace (List.length h + 1 + 1)%nat with (List.length h + 2)%nat by lia.
  exists [VRef (List.length h + 1); VRef (List.length h + 3)].
  split; [apply read_list; reflexivity|].
  repeat constructor.
  - apply (read_point2d _ _ 1 0 (VNum x1) (VNum y1)); [|reflexivity].
    cbn. now rewrite Nat.add_0_r.
  - apply (read_point2d _ _ 3 2 (VNum x2) (VNum y2)); reflexivity.
Qed.

Ltac sim_raise := apply sim_step_raise; reflexivity.

Lemma sim_from_xywh h arg v1 v2 (pt1 pt2 : point) :
  read h arg = Ok [v1; v2] -> is_point h v1 pt1 -> is_point h v2 pt2 ->
  sim is_points (Heap._from_xywh_to_xyxy arg)
      (CartesianBbox._from_xywh_to_xyxy [pt1; pt2]) h.
Proof.
  intros Harg H1 H2.
  unfold Heap._from_xywh_to_xyxy, CartesianBbox._from_xywh_to_xyxy.
  apply (sim_seq_items _ _ _ _ _ _ Harg).
  change (getitem [v1; v2] 0) with (Ok v1). apply sim_lift_ok.
  change (getitem [pt1; pt2] 0) with (Ok pt1). cbn [bind].
  apply (sim_seq_items _ _ _ _ _ _ H1).
  destruct pt1 as [|x1 [|y1 [|z1 pt1]]]; cbn [map unpack2 bind]; try sim_raise.
  apply sim_lift_ok.
  apply (sim_seq_items _ _ _ _ _ _ Harg).
  change (getitem [v1; v2] 1) with (Ok v2). apply sim_lift_ok.
  change (getitem [[x1; y1]; pt2] 1) with (Ok pt2). cbn [bind].
  apply (sim_seq_items _ _ _ _ _ _ H2).
  destruct pt2 as [|w [|h0 [|z2 pt2]]]; cbn [map unpack2 bind]; try sim_raise.
  apply sim_lift_ok.
  apply sim_binop. intros x2 _. apply sim_binop. intros y2 _.
  apply sim_corner_pair.
Qed.

Lemma sim_from_cxcywh h arg v1 v2 (pt1 pt2 : point) :
  read h arg = Ok [v1; v2] -> is_point h v1 pt1 -> is_point h v2 pt2 ->
  sim is_points (Heap._from_cxcywh_to_xyxy arg)
      (CartesianBbox._from_cxcywh_to_xyxy [pt1; pt2]) h.
Proof.
  intros Harg H1 H2.
  unfold Heap._from_cxcywh_to_xyxy, CartesianBbox._from_cxcywh_to_xyxy.
  apply (sim_seq_items _ _ _ _ _ _ Harg).
  change (getitem [v1; v2] 0) with (Ok v1). apply sim_lift_ok.
  change (getitem [pt1; pt2] 0) with (Ok pt1). cbn [bind].
  apply (sim_seq_items _ _ _ _ _ _ H1).
  destruct pt1 as [|x1 [|y1 [|z1 pt1]]]; cbn [map unpack2 bind]; try sim_raise.
  apply sim_lift_ok.
  apply (sim_seq_items _ _ _ _ _ _ Harg).
  change (getitem [v1; v2] 1) with (Ok v2). apply sim_lift_ok.
  change (getitem [[x1; y1]; pt2] 1) with (Ok pt2). cbn [bind].
  apply (sim_seq_items _ _ _ _ _ _ H2).
  destruct pt2 as [|w [|h0 [|z2 pt2]]]; cbn [map unpack2 bind]; try sim_raise.
  apply sim_lift_ok.
  apply sim_binop. intros hw _. apply sim_binop. intros x1' _.
  apply sim_binop. intros hh _. apply sim_binop. intros y1' _.
  apply sim_binop. intros x2 _. apply sim_binop. intros y2 _.
  apply sim_corner_pair.
Qed.

Lemma Forall2_getitem {A B} (R : A -> B -> Prop) (vs : list A) (ps : list B) (i : Z) :
  Forall2 R vs ps ->
  match getitem vs i, getitem ps i with
  | Ok v, Ok p => R v p
  | Raise e, Raise e' => e = e'
  | _, _ => False
  end.
Proof.
  intros Hall. unfold getitem. rewrite (Forall2_length Hall).
  destruct (_ <? 0)%Z; [reflexivity|].
  generalize (Z.to_nat (if (i <? 0)%Z then (i + Z.of_nat (List.length ps))%Z else i)).
  induction Hall as [|v p vs ps Hvp Hall IH]; intros [|n]; cbn; auto.
  apply IH.
Qed.

Lemma sim_getitem {A A' B B'} (RA : heap -> A -> A' -> Prop)
    (RB : heap -> B -> B' -> Prop) (vs : list A) (ps : list A') (i : Z)
    (k : A -> M B) (k' : A' -> result B') h :
  Forall2 (RA h) vs ps ->
  (forall v p, RA h v p -> sim RB (k v) (k' p) h) ->
  sim RB (mbind (lift (getitem vs i)) k) (bind (getitem ps i) k') h.
Proof.
  intros Hall Hk. pose proof (Forall2_getitem _ _ _ i Hall) as H.
  destruct (getitem vs i) as [v|e], (getitem ps i) as [p|e']; try contradiction.
  - apply sim_lift_ok. cbn [bind]. auto.
  - subst e'. sim_raise.
Qed.

Lemma attr_eq h b ptsv fmt :
  nth_error h b = Some (OCartesianBbox ptsv fmt) ->
  attr_points (VRef b) h = (Ok ptsv, h) /\ attr_fmt (VRef b) h = (Ok fmt, h).
Proof.
  intros H. unfold attr_points, attr_fmt, mbind, load. rewrite H. split; reflexivity.
Qed.

Section Pairs.

Variables (b : nat) (ptsv : val) (fmt : string) (vs : list val) (ps : list point).
Variables (conv : val -> M val) (conv' : list point -> result (list point)).

Hypothesis conv_sim : forall h arg v1 v2 pt1 pt2,
  read h arg = Ok [v1; v2] -> is_point h v1 pt1 -> is_point h v2 pt2 ->
  sim is_points (conv arg) (conv' [pt1; pt2]) h.

Lemma box_in_ext h h' :
  ext h h' -> box_in b ptsv fmt vs ps h -> box_in b ptsv fmt vs ps h'.
Proof.
  intros Hext (Hb & Hr & Hall). repeat split.
  - eapply ext_nth_error; eauto.
  - eapply read_ext; eauto.
  - eapply Forall2_impl; [|exact Hall]. intros v p. apply is_point_ext, Hext.
Qed.

Lemma sim_pairs_body h (idx : Z) (acc : val) (accp : list point) :
  box_in b ptsv fmt vs ps h -> is_points h acc accp ->
  sim is_points
    (sp <~ attr_points (VRef b) ;;
     items <~ seq_items sp ;;
     pt1 <~ lift (getitem items idx) ;;
     sp <~ attr_points (VRef b) ;;
     items <~ seq_items sp ;;
     pt2 <~ lift (getitem items (idx + 1)) ;;
     arg <~ alloc (OList [pt1; pt2]) ;;
     c <~ conv arg ;;
     old <~ seq_items acc ;;
     new <~ seq_items c ;;
     alloc (OList (old ++ new)))
    (pt1 <- getitem ps idx ;;
     pt2 <- getitem ps (idx + 1) ;;
     c <- conv' [pt1; pt2] ;;
     Ok (accp ++ c)%list) h.
Proof.
  intros Hbox Hacc. pose proof Hbox as (Hb & Hr & Hall).
  destruct (attr_eq _ _ _ _ Hb) as [Hp _].
  eapply sim_step; [exact Hp | apply ext_refl|].
  apply (sim_seq_items _ _ _ _ _ _ Hr).
  apply (sim_getitem is_point); [exact Hall | intros v1 pt1 H1].
  eapply sim_step; [exact Hp | apply ext_refl|].
  apply (sim_seq_items _ _ _ _ _ _ Hr).
  apply (sim_getitem is_point); [exact Hall | intros v2 pt2 H2].
  apply sim_alloc.
  eapply sim_bind.
  - eapply conv_sim.
    + rewrite <- (Nat.add_0_r (List.length h)). apply read_list. reflexivity.
    + eapply is_point_ext; [apply ext_app | exact H1].
    + eapply is_point_ext; [apply ext_app | exact H2].
  - intros c cp h' Hext (cvs & Hc & Hcall).
    assert (Hext' : ext h h') by (eapply ext_trans; [apply ext_app | exact Hext]).
    destruct (is_points_ext _ _ _ _ Hext' Hacc) as (avs & Ha & Haall).
    apply (sim_seq_items _ _ _ _ _ _ Ha).
    apply (sim_seq_items _ _ _ _ _ _ Hc).
    unfold sim, alloc. cbn [fst snd]. split; [apply ext_app|].
    exists (avs ++ cvs). split.
    + rewrite <- (Nat.add_0_r (List.length h')). apply read_list. reflexivity.
    + apply Forall2_app; (eapply Forall2_impl; [|eassumption]);
        intros v p; apply is_point_ext, ext_app.
Qed.

Lemma sim_pairs_loop (idxs : list Z) : forall h acc accp,
  box_in b ptsv fmt vs ps h -> is_points h acc accp ->
  sim is_points
    (Heap.for_in idxs
       (fun idx points =>
          sp <~ attr_points (VRef b) ;;
          items <~ seq_items sp ;;
          pt1 <~ lift (getitem items idx) ;;
          sp <~ attr_points (VRef b) ;;
          items <~ seq_items sp ;;
          pt2 <~ lift (getitem items (idx + 1)) ;;
          arg <~ alloc (OList [pt1; pt2]) ;;
          c <~ conv arg ;;
          old <~ seq_items points ;;
          new <~ seq_items c ;;
          alloc (OList (old ++ new)))
       acc)
    (for_in idxs
       (fun idx acc =>
          pt1 <- getitem ps idx ;;
          pt2 <- getitem ps (idx + 1) ;;
          c <- conv' [pt1; pt2] ;;
          Ok (acc ++ c)%list)
       accp) h.
Proof.
  induction idxs as [|idx idxs IH]; intros h acc accp Hbox Hacc;
    cbn [Heap.for_in for_in].
  - apply sim_ret, Hacc.
  - eapply sim_bind; [apply sim_pairs_body; assumption|].
    intros acc1 accp1 h' Hext Hacc1. apply IH; [|exact Hacc1].
    eapply box_in_ext; eauto.
Qed.

Lemma sim_convert_pairs h :
  box_in b ptsv fmt vs ps h ->
  sim is_points (Heap.convert_pairs (VRef b) conv)
      (CartesianBbox.convert_pairs
         {| CartesianBbox.points := ps; CartesianBbox.fmt := fmt |} conv') h.
Proof.
  intros Hbox. unfold Heap.convert_pairs, CartesianBbox.convert_pairs.
  cbn [CartesianBbox.points].
  apply sim_alloc.
  assert (Hbox1 : box_in b ptsv fmt vs ps (h ++ [OList []])) by (eapply box_in_ext; [apply ext_app | exact Hbox]).
  destruct Hbox1 as (Hb & Hr & Hall).
  destruct (attr_eq _ _ _ _ Hb) as [Hp _].
  eapply sim_step; [exact Hp | apply ext_refl|].
  apply (sim_seq_items _ _ _ _ _ _ Hr).
  replace (len vs) with (len ps) by (unfold len; now rewrite (Forall2_length Hall)).
  destruct (range 0 2 (len ps)) as [idxs|e]; [|sim_raise].
  apply sim_lift_ok. cbn [bind].
  apply sim_pairs_loop; [repeat split; assumption|].
  exists []. split; [|constructor].
  rewrite <- (Nat.add_0_r (List.length h)). apply read_list. reflexivity.
Qed.

End Pairs.

(** The store model of [get_points_as_xyxy] computes what the store-free
    model computes: run on a box whose points list stands for [ps], it
    raises the same exception or returns a list that stands for the same
    points, and only adds objects to the store. *)
Theorem get_points_as_xyxy_refines h b ptsv fmt ps :
  nth_error h b = Some (OCartesianBbox ptsv fmt) ->
  is_points h ptsv ps ->
  sim is_points (Heap.get_points_as_xyxy (VRef b))
      (CartesianBbox.get_points_as_xyxy
         {| CartesianBbox.points := ps; CartesianBbox.fmt := fmt |}) h.
Proof.
  intros Hb (vs & Hr & Hall).
  assert (Hbox : box_in b ptsv fmt vs ps h) by (repeat split; assumption).
  unfold Heap.get_points_as_xyxy, CartesianBbox.get_points_as_xyxy.
  cbn [CartesianBbox.points CartesianBbox.fmt].
  destruct (attr_eq _ _ _ _ Hb) as [Hp Hf].
  eapply sim_step; [exact Hp | apply ext_refl|].
  eapply sim_step; [exact Hf | apply ext_refl|].
  eapply sim_bind.
  { destruct (String.eqb fmt "xywh").
    - apply (sim_convert_pairs b ptsv fmt vs ps); [apply sim_from_xywh | exact Hbox].
    - apply sim_ret. exists vs. split; assumption. }
  intros v1 ps1 h1 Hext1 H1.
  pose proof (box_in_ext _ _ _ _ _ _ _ Hext1 Hbox) as Hbox1.
  destruct (attr_eq _ _ _ _ (proj1 Hbox1)) as [_ Hf1].
  eapply sim_step; [exact Hf1 | apply ext_refl|].
  eapply sim_bind.
  { destruct (String.eqb fmt "cxcywh").
    - apply (sim_convert_pairs b ptsv fmt vs ps); [apply sim_from_cxcywh | exact Hbox1].
    - apply sim_ret. exact H1. }
  intros v2 ps2 h2 Hext2 H2. apply sim_ret. exact H2.
Qed.

End HeapRefinement.

(** ** Point objects as sequences *)

Lemma getitem_pair {A : Type} (x y : A) (i : Z) :
  getitem [x; y] i
  = if (i =? 0) || (i =? -2) then Ok x
    else if (i =? 1) || (i =? -1) then Ok y
    else Raise IndexError.
Proof.
  destruct (Z.eqb_spec i 0) as [->|H0]; [reflexivity|].
  destruct (Z.eqb_spec i (-2)) as [->|H2]; [reflexivity|].
  destruct (Z.eqb_spec i 1) as [->|H1]; [reflexivity|].
  destruct (Z.eqb_spec i (-1)) as [->|H3]; [reflexivity|].
  cbn [orb]. unfold getitem. cbn [List.length].
  destruct (Z.ltb_spec i 0) as [Hneg|Hpos].
  - destruct (Z.ltb_spec (i + Z.of_nat 2) 0) as [_|Hj]; [reflexivity|]. lia.
  - destruct (Z.ltb_spec i 0) as [?|_]; [lia|].
    assert (E : nth_error [x; y] (Z.to_nat i) = None)
      by (apply nth_error_None; cbn [List.length]; lia).
    rewrite E. reflexivity.
Qed.

Lemma getitem_triple {A : Type} (x y z : A) (i : Z) :
  getitem [x; y; z] i
  = if (i =? 0) || (i =? -3) then Ok x
    else if (i =? 1) || (i =? -2) then Ok y
    else if (i =? 2) || (i =? -1) then Ok z
    else Raise IndexError.
Proof.
  destruct (Z.eqb_spec i 0) as [->|H0]; [reflexivity|].
  destruct (Z.eqb_spec i (-3)) as [->|H3]; [reflexivity|].
  destruct (Z.eqb_spec i 1) as [->|H1]; [reflexivity|].
  destruct (Z.eqb_spec i (-2)) as [->|H2]; [reflexivity|].
  destruct (Z.eqb_spec i 2) as [->|H4]; [reflexivity|].
  destruct (Z.eqb_spec i (-1)) as [->|H5]; [reflexivity|].
  cbn [orb]. unfold getitem. cbn [List.length].
  destruct (Z.ltb_spec i 0) as [Hneg|Hpos].
  - destruct (Z.ltb_spec (i + Z.of_nat 3) 0) as [_|Hj]; [reflexivity|]. lia.
  - destruct (Z.ltb_spec i 0) as [?|_]; [lia|].
    assert (E : nth_error [x; y; z] (Z.to_nat i) = None)
      by (apply nth_error_None; cbn [List.length]; lia).
    rewrite E. reflexivity.
Qed.

Module HeapPoints.
Import Heap(heap, val, VNum, VRef, obj, OList, OPoint2D, OPoint3D, M, ret, lift, mbind,
            alloc, load, list_items).
Import HeapLogic.

Lemma nth_error_alloc2 (h : heap) (o1 o2 : obj) :
  nth_error (h ++ [o1; o2])%list (List.length h) = Some o1 /\
  nth_error (h ++ [o1; o2])%list (S (List.length h)) = Some o2.
Proof.
  split.
  - rewrite nth_error_app2 by lia. now rewrite Nat.sub_diag.
  - rewrite nth_error_app2 by lia.
    replace (S (List.length h) - List.length h)%nat with 1%nat by lia. reflexivity.
Qed.

(** X10: A point object is a sequence over its own list [self.point].
    Built from [x] and [y] ([x], [y] and [z]), in every store in which the
    point and its list are as the constructor left them it has length 2
    (3), an index from 0 or, counted from the end, from -1 reads the
    coordinate, any other index raises [IndexError], and reading changes
    nothing.  An append to [self.point] is seen through the point: its
    length is then 3 (4). *)
Theorem point_is_its_coordinates (h : heap) (x y z : val) :
  (exists p h1,
     Heap.Point2D x y h = (Ok p, h1) /\
     (forall h2,
        (forall l, (List.length h <= l < List.length h1)%nat ->
                   nth_error h2 l = nth_error h1 l) ->
        HeapMethods.Point2D.__len__ p h2 = (Ok 2, h2) /\
        forall i, HeapMethods.Point2D.__getitem__ p i h2
                  = (if (i =? 0) || (i =? -2) then Ok x
                     else if (i =? 1) || (i =? -1) then Ok y
                     else Raise IndexError, h2)) /\
     (forall extra,
        fst (mbind (Heap.list_append (VRef (List.length h)) extra) (fun _ =>
             HeapMethods.Point2D.__len__ p) h1) = Ok 3)) /\
  (exists p h1,
     Heap.Point3D x y z h = (Ok p, h1) /\
     (forall h2,
        (forall l, (List.length h <= l < List.length h1)%nat ->
                   nth_error h2 l = nth_error h1 l) ->
        HeapMethods.Point3D.__len__ p h2 = (Ok 3, h2) /\
        forall i, HeapMethods.Point3D.__getitem__ p i h2
                  = (if (i =? 0) || (i =? -3) then Ok x
                     else if (i =? 1) || (i =? -2) then Ok y
                     else if (i =? 2) || (i =? -1) then Ok z
                     else Raise IndexError, h2)) /\
     (forall extra,
        fst (mbind (Heap.list_append (VRef (List.length h)) extra) (fun _ =>
             HeapMethods.Point3D.__len__ p) h1) = Ok 4)).
Proof.
  split.
  - exists (VRef (S (List.length h))),
      (h ++ [OList [x; y]; OPoint2D x y (VRef (List.length h))])%list.
    destruct (nth_error_alloc2 h (OList [x; y]) (OPoint2D x y (VRef (List.length h))))
      as [Hl Hp].
    repeat apply conj.
    + unfold Heap.Point2D, mbind, alloc. rewrite length_app, <- app_assoc.
      cbn [List.length app]. now rewrite Nat.add_1_r.
    + intros h2 Hk.
      rewrite <- (Hk (List.length h)) in Hl
        by (rewrite length_app; cbn [List.length]; lia).
      rewrite <- (Hk (S (List.length h))) in Hp
        by (rewrite length_app; cbn [List.length]; lia).
      unfold HeapMethods.Point2D.__len__, HeapMethods.Point2D.__getitem__,
        mbind, load, list_items.
      rewrite Hp. unfold mbind, load. rewrite Hl. cbn [ret lift].
      split; [reflexivity|]. intros i. now rewrite getitem_pair.
    + intros extra.
      unfold Heap.list_append, mbind at 1 2, load. rewrite Hl.
      unfold Heap.store.
      unfold HeapMethods.Point2D.__len__, mbind, load, list_items.
      rewrite HeapFacts.update_other by lia. rewrite Hp.
      unfold mbind, load.
      rewrite HeapFacts.update_same
        by (rewrite length_app; cbn [List.length]; lia).
      reflexivity.
  - exists (VRef (S (List.length h))),
      (h ++ [OList [x; y; z]; OPoint3D x y z (VRef (List.length h))])%list.
    destruct (nth_error_alloc2 h (OList [x; y; z]) (OPoint3D x y z (VRef (List.length h))))
      as [Hl Hp].
    repeat apply conj.
    + unfold Heap.Point3D, mbind, alloc. rewrite length_app, <- app_assoc.
      cbn [List.length app]. now rewrite Nat.add_1_r.
    + intros h2 Hk.
      rewrite <- (Hk (List.length h)) in Hl
        by (rewrite length_app; cbn [List.length]; lia).
      rewrite <- (Hk (S (List.length h))) in Hp
        by (rewrite length_app; cbn [List.length]; lia).
      unfold HeapMethods.Point3D.__len__, HeapMethods.Point3D.__getitem__,
        mbind, load, list_items.
      rewrite Hp. unfold mbind, load. rewrite Hl. cbn [ret lift].
      split; [reflexivity|]. intros i. now rewrite getitem_triple.
    + intros extra.
      unfold Heap.list_append, mbind at 1 2, load. rewrite Hl.
      unfold Heap.store.
      unfold HeapMethods.Point3D.__len__, mbind, load, list_items.
      rewrite HeapFacts.update_other by lia. rewrite Hp.
      unfold mbind, load.
      rewrite HeapFacts.update_same
        by (rewrite length_app; cbn [List.length]; lia).
      reflexivity.
Qed.

Lemma point_is_its_coordinates_witness :
  fst (Heap.mbind (Heap.Point2D (VNum (Int 3)) (VNum (Int 5))) (fun p =>
       HeapMethods.Point2D.__getitem__ p (-1)) []) = Ok (VNum (Int 5)).
Proof.
  destruct (point_is_its_coordinates [] (VNum (Int 3)) (VNum (Int 5)) (VNum (Int 0)))
    as [(p & h1 & Hp & H & _) _].
  unfold mbind. rewrite Hp.
  rewrite (proj2 (H h1 (fun _ _ => eq_refl)) (-1)). reflexivity.
Defined.

End HeapPoints.

(** ** What [bbox_to_spherical] returns is new *)

Module HeapResult.
Import Heap(heap, val, VNum, VRef, obj, OList, OPoint2D, OPoint3D, OCartesianBbox,
            OSphericalBbox, M, ret, lift, mbind, alloc, load, store, update,
            seq_items, list_items, list_append, as_nums).
Import HeapLogic HeapFacts HeapInvariants.
Local Open Scope nat_scope.

Lemma collecting_lt (n : nat) (h : heap) : collecting n h -> n < List.length h.
Proof. intros (items & H & _). apply nth_error_Some. congruence. Qed.

Lemma collecting_triple {A : Type} (n : nat) (c : M A) (Q : A -> Prop) (h : heap) :
  triple (S n) c Q -> collecting n h -> collecting n (snd (c h)).
Proof.
  intros Hc Hcol. pose proof (collecting_lt _ _ Hcol) as Hlt.
  destruct (Hc h Hlt) as (_ & Hfr & _).
  destruct Hcol as (items & Hn & Hall). exists items.
  split; [|exact Hall]. rewrite Hfr by lia. exact Hn.
Qed.

Lemma collecting_loop (m : libm) (n : nat) (xs : list val) : forall h,
  collecting n h ->
  collecting n
    (snd (Heap.for_in xs
            (fun cartesian_point (_ : unit) =>
               mbind (Heap.convert_point m cartesian_point) (fun spherical_point =>
               list_append (VRef n) spherical_point))
            tt h)).
Proof.
  induction xs as [|x xs IH]; intros h Hcol; cbn [Heap.for_in].
  - exact Hcol.
  - pose proof (collecting_lt _ _ Hcol) as Hlt.
    destruct (triple_convert_point_fresh (List.length h) m x h (le_n _))
      as (Hlen & Hfr & Hq).
    destruct Hcol as (items & Hn & Hall).
    unfold mbind at 1. unfold mbind at 1.
    destruct (Heap.convert_point m x h) as [[s|e] h1]; cbn [fst snd] in *.
    + destruct (Hq s eq_refl) as (l & -> & Hl).
      assert (Hn1 : nth_error h1 n = Some (OList items)) by (rewrite Hfr; assumption).
      unfold list_append, list_items, mbind, load, store. rewrite Hn1. cbn [ret].
      destruct tt. apply IH.
      exists (items ++ [VRef l])%list. split.
      * apply update_same. lia.
      * apply Forall_app. split; [exact Hall|]. constructor; [|constructor].
        exists l. split; [reflexivity | lia].
    + exists items. split; [rewrite Hfr; assumption | exact Hall].
Qed.

(** X11: The spherical box returned, its points list and every point in that
    list are objects created by the call: none is shared with the input box
    or with anything that existed before.  The list holds an even number of
    points, at least two. *)
Theorem bbox_to_spherical_result_is_new (m : libm) (h h' : heap) (box v : val) :
  Heap.bbox_to_spherical m box h = (Ok v, h') ->
  exists l items,
    v = VRef l /\ List.length h < l /\
    nth_error h' l = Some (OSphericalBbox (VRef (List.length h))) /\
    nth_error h' (List.length h) = Some (OList items) /\
    Forall (fresh (S (List.length h))) items /\
    2 <= List.length items /\ Nat.Even (List.length items).
Proof.
  set (n := List.length h).
  unfold Heap.bbox_to_spherical.
  unfold mbind at 1. unfold alloc at 1. fold n.
  assert (H0 : collecting n (h ++ [OList []])%list).
  { exists []. split; [|constructor].
    rewrite nth_error_app2 by (unfold n; lia). unfold n. now rewrite Nat.sub_diag. }
  unfold mbind at 1.
  pose proof (collecting_triple n _ _ _ (triple_get_points_as_xyxy (S n) box) H0) as H1.
  destruct (Heap.get_points_as_xyxy box (h ++ [OList []])%list) as [[cps|e] h1];
    cbn [snd] in H1; [|discriminate].
  unfold mbind at 1. rewrite HeapRefinement.seq_items_read.
  destruct (read h1 cps) as [xs|e]; [|discriminate].
  unfold mbind at 1.
  pose proof (collecting_loop m n xs h1 H1) as H2.
  destruct (Heap.for_in xs _ tt h1) as [[[]|e] h2]; cbn [snd] in H2; [|discriminate].
  pose proof (collecting_lt _ _ H2) as Hlt.
  destruct H2 as (items & Hn & Hall).
  unfold Heap.SphericalBbox, seq_items, list_items, mbind, load. rewrite Hn. cbn [ret].
  destruct (negb (2 <=? len items)%Z) eqn:E1; [discriminate|].
  rewrite Hn. cbn [ret].
  destruct (negb (len items mod 2 =? 0)%Z) eqn:E2; [discriminate|].
  unfold alloc. intros [= <- <-].
  apply not_true_iff_false in E1, E2. unfold len in E1, E2.
  rewrite too_few_iff in E1. rewrite odd_count_iff in E2.
  exists (List.length h2), items. repeat apply conj.
  - reflexivity.
  - exact Hlt.
  - rewrite nth_error_app2 by lia. now rewrite Nat.sub_diag.
  - rewrite nth_error_app1 by lia. exact Hn.
  - exact Hall.
  - lia.
  - destruct (Nat.Even_or_Odd (List.length items)); [assumption|contradiction].
Qed.

Lemma bbox_to_spherical_result_is_new_witness :
  exists l items,
    Heap.VRef 9 = VRef l /\ List.length xyxy_store < l /\
    nth_error (snd (Heap.bbox_to_spherical toy_libm (VRef 5) xyxy_store)) l
      = Some (OSphericalBbox (VRef (List.length xyxy_store))) /\
    nth_error (snd (Heap.bbox_to_spherical toy_libm (VRef 5) xyxy_store))
      (List.length xyxy_store) = Some (OList items) /\
    Forall (fresh (S (List.length xyxy_store))) items /\
    2 <= List.length items /\ Nat.Even (List.length items).
Proof.
  apply (bbox_to_spherical_result_is_new toy_libm xyxy_store _ (VRef 5) (VRef 9)).
  reflexivity.
Defined.

(** ** The constructors keep the caller's list *)

Lemma append_then_read (h : heap) (a b : nat) (items : list val) (extra box : val)
    (o : obj) (get : val -> M val) :
  nth_error h a = Some (OList items) ->
  nth_error h b = Some o -> a <> b ->
  (forall h', nth_error h' b = Some o -> get box h' = (Ok (VRef a), h')) ->
  fst (mbind (list_append (VRef a) extra) (fun _ =>
       mbind (get box) (fun pts => seq_items pts)) h)
  = Ok (items ++ [extra])%list.
Proof.
  intros Ha Hb Hne Hget.
  assert (Hlt : a < List.length h) by (apply nth_error_Some; congruence).
  assert (E1 : list_append (VRef a) extra h
               = (Ok tt, update h a (OList (items ++ [extra])))).
  { unfold list_append, list_items, mbind, load. rewrite Ha. reflexivity. }
  unfold mbind at 1. rewrite E1.
  unfold mbind at 1. rewrite Hget by (rewrite update_other by congruence; exact Hb).
  unfold seq_items, mbind, load. rewrite update_same by exact Hlt. reflexivity.
Qed.

(** X12: A constructor checks the number of points once and keeps the list it
    was given, not a copy: the box's [points] is the caller's list object,
    and a point appended to that list afterwards is a point of the box,
    which then holds an odd number of points. *)
Theorem constructors_keep_callers_list (h h1 : heap) (a : nat) (items : list val)
    (fmt : string) (box extra : val) :
  nth_error h a = Some (OList items) ->
  Heap.CartesianBbox (VRef a) fmt h = (Ok box, h1) \/
  Heap.SphericalBbox (VRef a) h = (Ok box, h1) ->
  Heap.attr_points box h1 = (Ok (VRef a), h1) /\
  fst (mbind (list_append (VRef a) extra) (fun _ =>
       mbind (Heap.attr_points box) (fun pts => seq_items pts)) h1)
  = Ok (items ++ [extra])%list /\
  Nat.Odd (List.length (items ++ [extra])%list).
Proof.
  intros Ha Hc.
  assert (Hlt : a < List.length h) by (apply nth_error_Some; congruence).
  assert (Hbox : exists o, box = VRef (List.length h) /\ h1 = (h ++ [o])%list /\
            (forall h', nth_error h' (List.length h) = Some o ->
               Heap.attr_points box h' = (Ok (VRef a), h')) /\
            Nat.Even (List.length items)).
  { destruct Hc as [Hc|Hc]; revert Hc.
    - unfold Heap.CartesianBbox.
      destruct (negb (existsb _ _)); [discriminate|].
      unfold seq_items, mbind, load. rewrite Ha. cbn [ret].
      destruct (negb (2 <=? len items)%Z); [discriminate|].
      rewrite Ha. cbn [ret].
      destruct (negb (len items mod 2 =? 0)%Z) eqn:E2; [discriminate|].
      unfold alloc. intros [= <- <-]. eexists. repeat split.
      + intros h' H'. unfold Heap.attr_points, mbind, load. rewrite H'. reflexivity.
      + apply not_true_iff_false in E2. unfold len in E2. rewrite odd_count_iff in E2.
        destruct (Nat.Even_or_Odd (List.length items)); [assumption|contradiction].
    - unfold Heap.SphericalBbox.
      unfold seq_items, mbind, load. rewrite Ha. cbn [ret].
      destruct (negb (2 <=? len items)%Z); [discriminate|].
      rewrite Ha. cbn [ret].
      destruct (negb (len items mod 2 =? 0)%Z) eqn:E2; [discriminate|].
      unfold alloc. intros [= <- <-]. eexists. repeat split.
      + intros h' H'. unfold Heap.attr_points, mbind, load. rewrite H'. reflexivity.
      + apply not_true_iff_false in E2. unfold len in E2. rewrite odd_count_iff in E2.
        destruct (Nat.Even_or_Odd (List.length items)); [assumption|contradiction]. }
  destruct Hbox as (o & -> & -> & Hget & Hev).
  assert (Hb : nth_error (h ++ [o])%list (List.length h) = Some o)
    by (rewrite nth_error_app2 by lia; now rewrite Nat.sub_diag).
  repeat apply conj.
  - apply Hget, Hb.
  - apply (append_then_read _ a (List.length h) items extra _ o Heap.attr_points).
    + rewrite nth_error_app1 by exact Hlt. exact Ha.
    + exact Hb.
    + lia.
    + exact Hget.
  - rewrite length_app. cbn [List.length]. destruct Hev as [k ->]. exists k. lia.
Qed.

Lemma constructors_keep_callers_list_witness :
  fst (mbind (list_append (VRef 4) (VRef 1)) (fun _ =>
       mbind (Heap.attr_points (VRef 5)) (fun pts => seq_items pts)) xyxy_store)
  = Ok [VRef 1; VRef 3; VRef 1].
Proof.
  apply (proj1 (proj2 (constructors_keep_callers_list
           (firstn 5 xyxy_store) xyxy_store 4 [VRef 1; VRef 3] "xyxy" (VRef 5) (VRef 1)
           eq_refl (or_introl eq_refl)))).
Defined.

End HeapResult.
